(** * DexScreener boost monitor (src/bot.py): model and properties

    The bot polls a feed of token boosts, remembers the identifiers it has
    already announced, and sends one Telegram message per new boost.  This
    file embeds the methods of [DexScreenerBot] as Rocq functions and proves
    the properties of the specification against them.

    Conventions of the embedding.
    - Python objects obtained from [response.json()] are values of [json].
    - A Python exception is the [Raise] outcome of [result]; the state of the
      bot is threaded explicitly, so what was mutated before an exception
      stays mutated.
    - Python floats are IEEE 754 binary64 numbers ([spec_float] with
      precision 53 and maximal exponent 1024); integers are unbounded.
    - The network is an oracle: each cycle is run against a [world] that
      fixes the outcome of every HTTP request and of every delivery. *)

From Stdlib Require Import ZArith String Ascii List DecimalString Lia.
From Stdlib Require Import Floats.SpecFloat.
From stdpp Require Import base gmap strings.

Open Scope string_scope.
Open Scope Z_scope.

Set Warnings "-clear-no-such-hyp".

(** ** Python values *)

Module Py.

#[local] Set Warnings "-register-all".

(** The exceptions the modelled code can raise; all derive from
    [Exception], so every [except Exception] clause catches them. *)
Inductive exn : Set :=
| KeyError | TypeError | AttributeError | IndexError | ValueError
| OverflowError.

Inductive result (A : Type) : Type :=
| Ok (a : A)
| Raise (e : exn).
Arguments Ok {A} a.
Arguments Raise {A} e.

Definition bind {A B} (r : result A) (k : A -> result B) : result B :=
  match r with
  | Ok a => k a
  | Raise e => Raise e
  end.

Definition is_ok {A} (r : result A) : bool :=
  match r with Ok _ => true | Raise _ => false end.

(** A decoded JSON document, as [json.loads] builds it: [None], [bool],
    [int], [float], [str], [list], and [dict] with string keys.  A [dict]
    is kept as its list of items, looked up from the left; a [float] is
    a binary64 number in canonical form; a [str] is kept as the bytes of
    its UTF-8 encoding. *)
Inductive json : Type :=
| JNull
| JBool (b : bool)
| JInt (z : Z)
| JFloat (f : spec_float)
| JStr (s : string)
| JList (l : list json)
| JDict (d : list (string * json)).

Fixpoint assoc (k : string) (d : list (string * json)) : option json :=
  match d with
  | nil => None
  | (k', v) :: d' => if String.eqb k k' then Some v else assoc k d'
  end.

(** [bool(v)] *)
Definition truthy (v : json) : bool :=
  match v with
  | JNull => false
  | JBool b => b
  | JInt z => negb (z =? 0)
  | JFloat (S754_zero _) => false
  | JFloat _ => true
  | JStr s => negb (String.eqb s "")
  | JList l => match l with nil => false | _ => true end
  | JDict d => match d with nil => false | _ => true end
  end.

(** [v[k]] for a string key [k] *)
Definition getitem (v : json) (k : string) : result json :=
  match v with
  | JDict d => match assoc k d with Some x => Ok x | None => Raise KeyError end
  | _ => Raise TypeError
  end.

(** [v.get(k, default)] *)
Definition get_default (v : json) (k : string) (default : json) : result json :=
  match v with
  | JDict d => Ok (match assoc k d with Some x => x | None => default end)
  | _ => Raise AttributeError
  end.

(** [v.get(k)] *)
Definition get (v : json) (k : string) : result json := get_default v k JNull.

(** [len(v)] *)
Definition len (v : json) : result Z :=
  match v with
  | JStr s => Ok (Z.of_nat (String.length s))
  | JList l => Ok (Z.of_nat (List.length l))
  | JDict d => Ok (Z.of_nat (List.length d))
  | _ => Raise TypeError
  end.

(** [v[0]]: the first element of a list, the first character of a string;
    a dict decoded from JSON has only string keys, so [0] is never one. *)
Definition getitem0 (v : json) : result json :=
  match v with
  | JList (x :: _) => Ok x
  | JList nil => Raise IndexError
  | JStr (String c _) => Ok (JStr (String c ""))
  | JStr "" => Raise IndexError
  | JDict _ => Raise KeyError
  | _ => Raise TypeError
  end.

(** The items a [for] loop over [v] visits: the elements of a list, the
    characters of a string, the keys of a dict. *)
Definition iter (v : json) : result (list json) :=
  match v with
  | JList l => Ok l
  | JStr s => Ok (map (fun c => JStr (String c "")) (list_ascii_of_string s))
  | JDict d => Ok (map (fun kv => JStr (fst kv)) d)
  | _ => Raise TypeError
  end.

(** ** Numbers *)

Definition prec : Z := 53.
Definition emax : Z := 1024.

Definition float_of_pos (k : positive) : spec_float :=
  binary_normalize prec emax (Zpos k) 0 false.

(** [float(z)] for an [int]: correctly rounded, [OverflowError] beyond the
    range of a double. *)
Definition float_of_int (z : Z) : result spec_float :=
  match binary_normalize prec emax z 0 false with
  | S754_infinity _ => Raise OverflowError
  | f => Ok f
  end.

(** [a / k] for an [int] [a] and a positive literal [k]: the correctly
    rounded quotient of the two integers. *)
Definition int_truediv (a : Z) (k : positive) : result spec_float :=
  match a with
  | Z0 => Ok (S754_zero false)
  | Zpos m =>
      match SFdiv prec emax (S754_finite false m 0) (S754_finite false k 0) with
      | S754_infinity _ => Raise OverflowError
      | q => Ok q
      end
  | Zneg m =>
      match SFdiv prec emax (S754_finite true m 0) (S754_finite false k 0) with
      | S754_infinity _ => Raise OverflowError
      | q => Ok q
      end
  end.

Definition int_of_bool (b : bool) : Z := if b then 1 else 0.

(** [v >= k] for an integer literal [k] that a double represents exactly
    (so comparing a float with [float(k)] is the exact comparison). *)
Definition ge_lit (v : json) (k : positive) : result bool :=
  match v with
  | JInt z => Ok (Zpos k <=? z)
  | JBool b => Ok (Zpos k <=? int_of_bool b)
  | JFloat f => Ok (SFleb (float_of_pos k) f)
  | _ => Raise TypeError
  end.

(** [v / k] for such a literal. *)
Definition truediv_lit (v : json) (k : positive) : result spec_float :=
  match v with
  | JInt z => int_truediv z k
  | JBool b => int_truediv (int_of_bool b) k
  | JFloat f => Ok (SFdiv prec emax f (float_of_pos k))
  | _ => Raise TypeError
  end.

(** *** Fixed-point formatting, [format(x, '.<d>f')] *)

Definition dec (n : Z) : string := NilZero.string_of_uint (N.to_uint (Z.to_N n)).

Fixpoint zeros (n : nat) : string :=
  match n with O => "" | S n' => String "0" (zeros n') end.

(** [n] written with at least [d] digits *)
Definition pad (d : nat) (n : Z) : string :=
  let s := dec n in zeros (d - String.length s) ++ s.

(** [m * 2^e * 10^d] rounded to the nearest integer, ties to even *)
Definition scaled (m : positive) (e : Z) (d : nat) : Z :=
  let num := Zpos m * 10 ^ Z.of_nat d in
  if 0 <=? e then num * 2 ^ e
  else
    let den := 2 ^ (- e) in
    let q := num / den in
    match (2 * (num mod den)) ?= den with
    | Lt => q
    | Gt => q + 1
    | Eq => if Z.even q then q else q + 1
    end.

Definition fixed (d : nat) (n : Z) : string :=
  dec (n / 10 ^ Z.of_nat d) ++
  match d with O => "" | _ => "." ++ pad d (n mod 10 ^ Z.of_nat d) end.

Definition sign (s : bool) : string := if s then "-" else "".

Definition format_f (d : nat) (x : spec_float) : string :=
  match x with
  | S754_nan => "nan"
  | S754_infinity s => sign s ++ "inf"
  | S754_zero s => sign s ++ fixed d 0
  | S754_finite s m e => sign s ++ fixed d (scaled m e d)
  end.

(** [f"{v:.<d>f}"]: an [int] (or [bool]) is converted with [float] first. *)
Definition format_fixed (d : nat) (v : json) : result string :=
  match v with
  | JInt z => bind (float_of_int z) (fun x => Ok (format_f d x))
  | JBool b => bind (float_of_int (int_of_bool b)) (fun x => Ok (format_f d x))
  | JFloat f => Ok (format_f d f)
  | _ => Raise TypeError
  end.

(** ** Strings *)

Definition nl : string := String (ascii_of_nat 10) "".

(** [s.startswith(p)] *)
Fixpoint starts_with (p s : string) : bool :=
  match p, s with
  | "", _ => true
  | String a p', String b s' => Ascii.eqb a b && starts_with p' s'
  | String _ _, "" => false
  end.

(** [p in s] for two strings *)
Fixpoint occurs (p s : string) : bool :=
  starts_with p s
  || match s with "" => false | String _ s' => occurs p s' end.

(** [c in s] for a character *)
Fixpoint has (c : ascii) (s : string) : bool :=
  match s with
  | "" => false
  | String b s' => Ascii.eqb c b || has c s'
  end.

(** Every character of [s] is one of [alphabet] *)
Fixpoint all_in (alphabet s : string) : bool :=
  match s with
  | "" => true
  | String b s' => has b alphabet && all_in alphabet s'
  end.

(** ['\n'.join(l)] *)
Fixpoint join_lines (l : list string) : string :=
  match l with
  | nil => ""
  | x :: nil => x
  | x :: l' => x ++ nl ++ join_lines l'
  end.

(** ** Builtins left to the interpreter

    What the bot needs from these builtins is their type; their full
    definition (the [repr] of floats and containers, the grammar of
    [float], Unicode case mapping) is the interpreter's.  Every property
    below holds whatever they compute. *)
Class Runtime : Type := {
  (** [str(v)] for a [v] that is not a [str] *)
  str_other : json -> string;
  (** [float(s)] for a [str] *)
  float_of_str : string -> result spec_float;
  (** [s.lower()] *)
  lower : string -> string;
  (** [s.title()] *)
  title : string -> string
}.

Section Builtins.
Context {RT : Runtime}.

(** [str(v)], what [f"{v}"] inserts *)
Definition str (v : json) : string :=
  match v with
  | JStr s => s
  | _ => str_other v
  end.

(** [float(v)] *)
Definition float (v : json) : result spec_float :=
  match v with
  | JStr s => float_of_str s
  | JInt z => float_of_int z
  | JBool b => float_of_int (int_of_bool b)
  | JFloat f => Ok f
  | _ => Raise TypeError
  end.

End Builtins.

Definition is_str (s : string) (v : json) : bool :=
  match v with JStr s' => String.eqb s s' | _ => false end.

(** [k in v] for a string [k]: a key of a dict, a substring of a string,
    an element of a list. *)
Definition contains (k : string) (v : json) : result bool :=
  match v with
  | JDict d => Ok (match assoc k d with Some _ => true | None => false end)
  | JStr s => Ok (occurs k s)
  | JList l => Ok (existsb (is_str k) l)
  | _ => Raise TypeError
  end.

End Py.
Import Py.

Notation "x <- c ;; k" := (bind c (fun x => k))
  (at level 100, c at next level, right associativity).


(** ** The outside world *)

(** What a [requests.get(...)], [raise_for_status()], [response.json()]
    sequence comes to: one of the three ways it raises, or the decoded
    body. *)
Inductive http_outcome : Type :=
| TransportError              (* connection failure or timeout *)
| BadStatus (code : Z)        (* [raise_for_status] raised: 4xx or 5xx *)
| MalformedBody               (* the body is not JSON *)
| Body (data : json).

(** What a run leaves behind, in order. *)
Inductive event : Type :=
| LogError (what : string)
    (* [logger.error]; [what] is the fixed part of the message *)
| SendMessage (boost : json) (text : string) (delivered : bool)
    (* [bot.send_message(text=...)] inside [send_notification(boost)];
       [delivered] is false when the call raised *)
| Sleep (seconds : Z).
    (* [asyncio.sleep] *)

(** The outcomes one cycle of the loop meets.  Requests and deliveries
    are indexed by the position, in the polled list, of the boost they are
    made for. *)
Record world : Type := {
  boosts_reply : http_outcome;
  tokens_reply : nat -> string -> http_outcome;   (* by position and URL *)
  delivers : nat -> string -> bool;               (* by position and text *)
  now : Z                                         (* [datetime.now()] *)
}.

(** ** The bot *)

Module Bot.

Definition CHECK_INTERVAL : Z := 60.

(** The attributes of [DexScreenerBot] that the loop updates. *)
Record bot : Type := {
  known_boosts : gset string;
  last_check_time : Z
}.

(** The dict [get_token_info] returns. *)
Record token_info : Type := {
  name : json;
  symbol : json;
  market_cap : json;
  fdv : json;
  price_usd : json;
  liquidity_usd : json;
  info : json
}.

(** [format_number]: large numbers in a readable way. *)
Definition format_number (num : json) : result string :=
  b <- ge_lit num 1000000000 ;;
  if b : bool then
    q <- truediv_lit num 1000000000 ;; Ok ("$" ++ format_f 2 q ++ "B")
  else
  m <- ge_lit num 1000000 ;;
  if m : bool then
    q <- truediv_lit num 1000000 ;; Ok ("$" ++ format_f 2 q ++ "M")
  else
  k <- ge_lit num 1000 ;;
  if k : bool then
    q <- truediv_lit num 1000 ;; Ok ("$" ++ format_f 2 q ++ "K")
  else
    s <- format_fixed 2 num ;; Ok ("$" ++ s).

(** The body of the [try] of [get_token_info], after the request. *)
Definition first_pair_info (data : json) : result (option token_info) :=
  pairs <- get data "pairs" ;;
  if truthy pairs then
    pairs <- getitem data "pairs" ;;
    n <- len pairs ;;
    if 0 <? n then
      pair <- getitem0 pairs ;;
      base <- getitem pair "baseToken" ;;
      nm <- getitem base "name" ;;
      sy <- getitem base "symbol" ;;
      mc <- get_default pair "marketCap" (JInt 0) ;;
      fd <- get_default pair "fdv" (JInt 0) ;;
      pr <- get_default pair "priceUsd" (JStr "0") ;;
      lq <- get_default pair "liquidity" (JDict nil) ;;
      lu <- get_default lq "usd" (JInt 0) ;;
      inf <- get_default pair "info" (JDict nil) ;;
      Ok (Some {| name := nm; symbol := sy; market_cap := mc; fdv := fd;
                  price_usd := pr; liquidity_usd := lu; info := inf |})
    else Ok None
  else Ok None.

(** [get_token_info], given what the request comes to: the token
    information, or [None], and what was logged. *)
Definition get_token_info (reply : http_outcome)
  : option token_info * list event :=
  match reply with
  | Body data =>
      match first_pair_info data with
      | Ok r => (r, nil)
      | Raise _ => (None, LogError "Error fetching token info" :: nil)
      end
  | _ => (None, LogError "Error fetching token info" :: nil)
  end.

(** [get_latest_boosts] *)
Definition get_latest_boosts (reply : http_outcome) : json * list event :=
  match reply with
  | Body data => (data, nil)
  | _ => (JList nil, LogError "Error fetching boosts" :: nil)
  end.

Section WithRuntime.
Context {RT : Runtime}.

Definition platform_icon (platform : string) : string :=
  if String.eqb platform "twitter" then "🐦"
  else if String.eqb platform "telegram" then "📱"
  else if String.eqb platform "discord" then "💬"
  else if String.eqb platform "medium" then "📝"
  else if String.eqb platform "github" then "💻"
  else "🔗".

(** The first loop of [format_social_links]: the lines the websites add. *)
Fixpoint website_links (websites : list json) : result (list string) :=
  match websites with
  | nil => Ok nil
  | website :: rest =>
      u <- get website "url" ;;
      if truthy u then
        url <- getitem website "url" ;;
        more <- website_links rest ;;
        Ok (("🌐 [Website](" ++ str url ++ ")") :: more)
      else website_links rest
  end.

(** [social.get('platform', '').lower()] *)
Definition platform_of (social : json) : result string :=
  p <- get_default social "platform" (JStr "") ;;
  match p with
  | JStr s => Ok (lower s)
  | _ => Raise AttributeError
  end.

(** The second loop: the lines the socials add. *)
Fixpoint social_links (socials : list json) : result (list string) :=
  match socials with
  | nil => Ok nil
  | social :: rest =>
      platform <- platform_of social ;;
      handle <- get_default social "handle" (JStr "") ;;
      let icon := platform_icon platform in
      if negb (String.eqb platform "") && truthy handle then
        let link :=
          if String.eqb platform "twitter" then
            icon ++ " [Twitter](https://twitter.com/" ++ str handle ++ ")"
          else if String.eqb platform "telegram" then
            icon ++ " [Telegram](https://t.me/" ++ str handle ++ ")"
          else if String.eqb platform "discord" then
            icon ++ " [Discord](" ++ str handle ++ ")"
          else
            icon ++ " [" ++ title platform ++ "](" ++ str handle ++ ")" in
        more <- social_links rest ;;
        Ok (link :: more)
      else social_links rest
  end.

(** The lines one of the two keys of [info] contributes:
    [if key in info and info[key]: for x in info[key]: ...] *)
Definition links_under (key : string)
    (each : list json -> result (list string)) (info : json)
  : result (list string) :=
  has <- contains key info ;;
  if has : bool then
    v <- getitem info key ;;
    if truthy v then
      v <- getitem info key ;;
      items <- iter v ;;
      each items
    else Ok nil
  else Ok nil.

(** [format_social_links] *)
Definition format_social_links (info : json) : result string :=
  web <- links_under "websites" website_links info ;;
  soc <- links_under "socials" social_links info ;;
  let links := (web ++ soc)%list in
  Ok (match links with
      | nil => "No social links available"
      | _ => join_lines links
      end).

(** The text [send_notification] builds when the token information is
    there, up to the social links. *)
Definition main_message (boost_data : json) (ti : token_info)
  : result string :=
  chain <- getitem boost_data "chainId" ;;
  address <- getitem boost_data "tokenAddress" ;;
  cap <- format_number (market_cap ti) ;;
  fdv' <- format_number (fdv ti) ;;
  price <- float (price_usd ti) ;;
  liq <- format_number (liquidity_usd ti) ;;
  amount <- getitem boost_data "amount" ;;
  amount' <- format_number amount ;;
  total <- getitem boost_data "totalAmount" ;;
  total' <- format_number total ;;
  let message :=
    "🔥 *NEW TOKEN BOOST DETECTED* 🔥" ++ nl ++ nl ++
    "*Token:* " ++ str (name ti) ++ " (" ++ str (symbol ti) ++ ")" ++ nl ++
    "*Chain:* " ++ str chain ++ nl ++
    "*Address:* `" ++ str address ++ "`" ++ nl ++ nl ++
    "*💰 Token Metrics:*" ++ nl ++
    "• Market Cap: " ++ cap ++ nl ++
    "• FDV: " ++ fdv' ++ nl ++
    "• Price: $" ++ format_f 8 price ++ nl ++
    "• Liquidity: " ++ liq ++ nl ++ nl ++
    "*🚀 Boost Details:*" ++ nl ++
    "• Boost Amount: " ++ amount' ++ nl ++
    "• Total Amount: " ++ total' ++ nl in
  d <- get boost_data "description" ;;
  message <-
    (if truthy d then
       description <- getitem boost_data "description" ;;
       Ok (message ++ nl ++ "*📝 Description:*" ++ nl ++
           str description ++ nl)
     else Ok message) ;;
  let message := message ++ nl ++ "*🔗 Important Links:*" ++ nl in
  u <- get boost_data "url" ;;
  if truthy u then
    url <- getitem boost_data "url" ;;
    Ok (message ++ "• [DexScreener](" ++ str url ++ ")" ++ nl)
  else Ok message.

(** The whole text: [main_message], then the social links when
    [token_info.get('info')] is true. *)
Definition full_message (boost_data : json) (ti : token_info)
  : result string :=
  message <- main_message boost_data ti ;;
  if truthy (info ti) then
    links <- format_social_links (info ti) ;;
    Ok (message ++ nl ++ "*Social Links:*" ++ nl ++ links)
  else Ok message.

(** The fallback text, when the token information can't be retrieved. *)
Definition fallback_message (boost_data : json) : result string :=
  chain <- getitem boost_data "chainId" ;;
  address <- getitem boost_data "tokenAddress" ;;
  amount <- getitem boost_data "amount" ;;
  amount' <- format_number amount ;;
  total <- getitem boost_data "totalAmount" ;;
  total' <- format_number total ;;
  Ok ("🔥 *NEW TOKEN BOOST DETECTED* 🔥" ++ nl ++ nl ++
      "*Chain:* " ++ str chain ++ nl ++
      "*Token Address:* `" ++ str address ++ "`" ++ nl ++
      "*Boost Amount:* " ++ amount' ++ nl ++
      "*Total Amount:* " ++ total' ++ nl).

Definition tokens_url (token_address : json) : string :=
  "https://api.dexscreener.com/latest/dex/tokens/" ++ str token_address.

(** The first half of [send_notification], for the boost at position [i]
    of the polled list: the token information is fetched and the text is
    built.  Nothing here is inside a [try] of [send_notification]. *)
Definition build_message (w : world) (i : nat) (boost_data : json)
  : list event * result string :=
  match getitem boost_data "chainId" with
  | Raise e => (nil, Raise e)
  | Ok _ =>
  match getitem boost_data "tokenAddress" with
  | Raise e => (nil, Raise e)
  | Ok token_address =>
      let '(token_info, log) :=
        get_token_info (tokens_reply w i (tokens_url token_address)) in
      (log,
       match token_info with
       | Some ti => full_message boost_data ti
       | None => fallback_message boost_data
       end)
  end
  end.

(** [send_notification]: what it logs and sends, and whether it returns
    or raises.  The delivery is inside a [try]. *)
Definition send_notification (w : world) (i : nat) (boost_data : json)
  : list event * result unit :=
  match build_message w i boost_data with
  | (log, Raise e) => (log, Raise e)
  | (log, Ok text) =>
      if delivers w i text then
        ((log ++ SendMessage boost_data text true :: nil)%list, Ok tt)
      else
        ((log ++ SendMessage boost_data text false
              :: LogError "Error sending notification" :: nil)%list,
         Ok tt)
  end.

(** [boost_id = f"{boost['chainId']}_{boost['tokenAddress']}"] *)
Definition boost_id (boost : json) : result string :=
  chain <- getitem boost "chainId" ;;
  address <- getitem boost "tokenAddress" ;;
  Ok (str chain ++ "_" ++ str address).

(** The [for] loop of [monitor_boosts], from position [i] on: the set of
    known identifiers it leaves, what happened, and whether it ran to the
    end or an exception left it. *)
Fixpoint for_boosts (w : world) (i : nat) (boosts : list json)
    (known : gset string) : gset string * list event * result unit :=
  match boosts with
  | nil => (known, nil, Ok tt)
  | boost :: rest =>
      match boost_id boost with
      | Raise e => (known, nil, Raise e)
      | Ok id =>
          if bool_decide (id ∈ known) then for_boosts w (S i) rest known
          else
            let known := {[id]} ∪ known in
            match send_notification w i boost with
            | (log, Raise e) => (known, log, Raise e)
            | (log, Ok _) =>
                let '(known, log', r) := for_boosts w (S i) rest known in
                (known, (log ++ log')%list, r)
            end
      end
  end.

(** [if not isinstance(latest_boosts, list): latest_boosts = [latest_boosts]] *)
Definition as_list (latest_boosts : json) : list json :=
  match latest_boosts with
  | JList l => l
  | v => v :: nil
  end.

(** One turn of the [while True] of [monitor_boosts]. *)
Definition cycle (w : world) (st : bot) : bot * list event :=
  let '(latest_boosts, log0) := get_latest_boosts (boosts_reply w) in
  let '(known, log1, r) :=
    for_boosts w 0 (as_list latest_boosts) (known_boosts st) in
  match r with
  | Ok _ =>
      ({| known_boosts := known; last_check_time := now w |},
       (log0 ++ log1 ++ Sleep CHECK_INTERVAL :: nil)%list)
  | Raise _ =>
      ({| known_boosts := known; last_check_time := last_check_time st |},
       (log0 ++ log1 ++ LogError "Error in monitoring loop"
             :: Sleep CHECK_INTERVAL :: nil)%list)
  end.

(** [monitor_boosts], for as many turns as there are worlds. *)
Fixpoint monitor_boosts (ws : list world) (st : bot) : bot * list event :=
  match ws with
  | nil => (st, nil)
  | w :: ws' =>
      let '(st1, log1) := cycle w st in
      let '(st2, log2) := monitor_boosts ws' st1 in
      (st2, (log1 ++ log2)%list)
  end.

End WithRuntime.

End Bot.
Import Bot.

(** ** Reading a run

    The vocabulary of the statements below: what a log holds for an
    identifier, and the parts of a cycle. *)

Module Obs.

(** The request did not give a decoded body *)
Definition failed (reply : http_outcome) : bool :=
  match reply with
  | Body _ => false
  | _ => true
  end.

(** [pair.get('liquidity', {})] is something [.get] can be called on *)
Definition liquidity_is_dict (pair : list (string * json)) : bool :=
  match assoc "liquidity" pair with
  | None | Some (JDict _) => true
  | Some _ => false
  end.

(** [pair.get('liquidity', {}).get('usd', 0)] for such a pair *)
Definition liquidity_usd_of (pair : list (string * json)) : json :=
  match assoc "liquidity" pair with
  | Some (JDict l) => default (JInt 0) (assoc "usd" l)
  | _ => JInt 0
  end.

(** [info.get(key)] is missing or empty *)
Definition no_entries (key : string) (info : list (string * json)) : bool :=
  match assoc key info with
  | None => true
  | Some v => negb (truthy v)
  end.

(** The characters [format_number] writes *)
Definition number_alphabet : string := "$0123456789.-KMBnaif".

(** The reduced text, for a chain, an address and two formatted amounts *)
Definition reduced_text (chain address amount total : string) : string :=
  "🔥 *NEW TOKEN BOOST DETECTED* 🔥" ++ nl ++ nl ++
  "*Chain:* " ++ chain ++ nl ++
  "*Token Address:* `" ++ address ++ "`" ++ nl ++
  "*Boost Amount:* " ++ amount ++ nl ++
  "*Total Amount:* " ++ total ++ nl.

(** The end of a message whose token information has no link *)
Definition no_links_block : string :=
  nl ++ "*Social Links:*" ++ nl ++ "No social links available".

Section WithRuntime.
Context {RT : Runtime}.

(** [e] is a message sent for a boost whose identifier is [id] *)
Definition sends (id : string) (e : event) : bool :=
  match e with
  | SendMessage b _ _ =>
      match boost_id b with
      | Ok id' => String.eqb id id'
      | Raise _ => false
      end
  | _ => false
  end.

(** How many messages [log] holds for [id] *)
Definition notifications (id : string) (log : list event) : nat :=
  length (filter (fun e => sends id e = true) log).

Definition is_send (e : event) : bool :=
  match e with SendMessage _ _ _ => true | _ => false end.

(** The identifiers of the boosts of a list that have one *)
Fixpoint ids (boosts : list json) : list string :=
  match boosts with
  | nil => nil
  | b :: rest =>
      match boost_id b with
      | Ok id => id :: ids rest
      | Raise _ => ids rest
      end
  end.

(** The list a cycle iterates over, and the run of its [for] loop *)
Definition polled (w : world) : list json :=
  as_list (fst (get_latest_boosts (boosts_reply w))).

Definition run_loop (w : world) (st : bot)
  : gset string * list event * result unit :=
  for_boosts w 0 (polled w) (known_boosts st).

(** The loop ran to its end: no exception reached the handler of the cycle *)
Definition completed (w : world) (st : bot) : bool :=
  is_ok (snd (run_loop w st)).

(** What a cycle logs after its loop *)
Definition cycle_tail (r : result unit) : list event :=
  match r with
  | Ok _ => Sleep CHECK_INTERVAL :: nil
  | Raise _ => LogError "Error in monitoring loop" :: Sleep CHECK_INTERVAL :: nil
  end.

End WithRuntime.
End Obs.
Import Obs.

(** ** A reference runtime, to evaluate the model on examples

    It is exact on ASCII text, on the [str] of [None], booleans and
    integers, and on [float] of plain decimal literals ([12], [0.5],
    [-3.25]); the examples below stay within that fragment. *)

Module Reference.

Definition is_upper (c : ascii) : bool :=
  let n := nat_of_ascii c in (65 <=? n)%nat && (n <=? 90)%nat.
Definition is_lower (c : ascii) : bool :=
  let n := nat_of_ascii c in (97 <=? n)%nat && (n <=? 122)%nat.
Definition to_lower (c : ascii) : ascii :=
  if is_upper c then ascii_of_nat (nat_of_ascii c + 32) else c.
Definition to_upper (c : ascii) : ascii :=
  if is_lower c then ascii_of_nat (nat_of_ascii c - 32) else c.

Fixpoint ascii_lower (s : string) : string :=
  match s with
  | "" => ""
  | String c s' => String (to_lower c) (ascii_lower s')
  end.

(** [in_word]: the previous character was a letter *)
Fixpoint ascii_title_from (in_word : bool) (s : string) : string :=
  match s with
  | "" => ""
  | String c s' =>
      String (if in_word then to_lower c else to_upper c)
             (ascii_title_from (is_upper c || is_lower c) s')
  end.

Definition str_simple (v : json) : string :=
  match v with
  | JNull => "None"
  | JBool true => "True"
  | JBool false => "False"
  | JInt (Zneg p) => "-" ++ dec (Zpos p)
  | JInt z => dec z
  | _ => ""
  end.

Definition digit_of (c : ascii) : option Z :=
  let n := nat_of_ascii c in
  if (48 <=? n)%nat && (n <=? 57)%nat then Some (Z.of_nat (n - 48)) else None.

(** The digits of [s] read as a number, with how many there are *)
Fixpoint digits (s : string) (acc : Z) (count : nat) : option (Z * nat) :=
  match s with
  | "" => Some (acc, count)
  | String c s' =>
      match digit_of c with
      | Some d => digits s' (10 * acc + d) (S count)
      | None => None
      end
  end.

Definition split_at_dot (s : string) : string * string :=
  match index 0 "." s with
  | Some i => (substring 0 i s, substring (S i) (String.length s - S i) s)
  | None => (s, "")
  end.

Definition unsigned_decimal (negative : bool) (s : string)
  : result spec_float :=
  let '(whole, frac) := split_at_dot s in
  match whole, digits (whole ++ frac) 0 0 with
  | "", _ => Raise ValueError
  | _, None => Raise ValueError
  | _, Some (n, _) =>
      match n with
      | Z0 => Ok (S754_zero negative)
      | _ => int_truediv (if negative then - n else n)
                         (Z.to_pos (10 ^ Z.of_nat (String.length frac)))
      end
  end.

Definition decimal_float (s : string) : result spec_float :=
  match s with
  | String "-" s' => unsigned_decimal true s'
  | _ => unsigned_decimal false s
  end.

#[export] Instance runtime : Runtime := {|
  str_other := str_simple;
  float_of_str := decimal_float;
  lower := ascii_lower;
  title := ascii_title_from false
|}.

End Reference.

(** ** Sample boosts, responses and worlds *)

Module Sample.

Definition boost (chain address : string) (amount total : Z) : json :=
  JDict (("chainId", JStr chain) :: ("tokenAddress", JStr address)
         :: ("amount", JInt amount) :: ("totalAmount", JInt total) :: nil).

Definition solana : json := boost "solana" "ABC" 100 500.
Definition eth : json := boost "eth" "0x1" 1500 2500000.

(** A boost without its amounts *)
Definition no_amounts : json :=
  JDict (("chainId", JStr "bsc") :: ("tokenAddress", JStr "0x2") :: nil).

Definition base_token : string * json :=
  ("baseToken", JDict (("name", JStr "Foo") :: ("symbol", JStr "FOO") :: nil)).

(** A pair with no [info], and one whose [info] has two empty lists *)
Definition plain_pair : list (string * json) :=
  base_token :: ("marketCap", JInt 1234567) :: ("priceUsd", JStr "0.5") :: nil.

Definition empty_links : list (string * json) :=
  ("websites", JList nil) :: ("socials", JList nil) :: nil.

Definition linkless_pair : list (string * json) :=
  base_token :: ("info", JDict empty_links) :: nil.

Definition pairs_body (pair : list (string * json)) : json :=
  JDict (("pairs", JList (JDict pair :: nil)) :: nil).

(** The feed answers with [boosts]; the token requests time out; every
    message is delivered. *)
Definition feed (boosts : list json) (clock : Z) : world :=
  {| boosts_reply := Body (JList boosts);
     tokens_reply := fun _ _ => TransportError;
     delivers := fun _ _ => true;
     now := clock |}.

(** The same, with the token requests answered by one pair *)
Definition feed_with (pair : list (string * json)) (boosts : list json)
    (clock : Z) : world :=
  {| boosts_reply := Body (JList boosts);
     tokens_reply := fun _ _ => Body (pairs_body pair);
     delivers := fun _ _ => true;
     now := clock |}.

(** The same as [feed], with no message delivered *)
Definition muted (boosts : list json) (clock : Z) : world :=
  {| boosts_reply := Body (JList boosts);
     tokens_reply := fun _ _ => TransportError;
     delivers := fun _ _ => false;
     now := clock |}.

(** The feed times out. *)
Definition offline (clock : Z) : world :=
  {| boosts_reply := TransportError;
     tokens_reply := fun _ _ => TransportError;
     delivers := fun _ _ => true;
     now := clock |}.

(** What [get_token_info] makes of [plain_pair] and of [linkless_pair] *)
Definition plain_info : token_info :=
  {| name := JStr "Foo"; symbol := JStr "FOO"; market_cap := JInt 1234567;
     fdv := JInt 0; price_usd := JStr "0.5"; liquidity_usd := JInt 0;
     info := JDict nil |}.

Definition linkless_info : token_info :=
  {| name := JStr "Foo"; symbol := JStr "FOO"; market_cap := JInt 0;
     fdv := JInt 0; price_usd := JStr "0"; liquidity_usd := JInt 0;
     info := JDict empty_links |}.

(** A bot that has seen nothing, and one that has seen [eth] *)
Definition fresh : bot := {| known_boosts := ∅; last_check_time := 0 |}.
Definition seen_eth : bot :=
  {| known_boosts := {["eth_0x1"]}; last_check_time := 0 |}.

End Sample.

(** ** More of the bot: construction, status, and what a log shows *)

Module Trace.

(** [DexScreenerBot.__init__] at time [t]: nothing is known yet. *)
Definition init (t : Z) : bot :=
  {| known_boosts := ∅; last_check_time := t |}.

(** The boosts a log holds a message for, in the order of the log *)
Fixpoint sent (log : list event) : list json :=
  match log with
  | nil => nil
  | SendMessage b _ _ :: log' => b :: sent log'
  | _ :: log' => sent log'
  end.

(** The waits of a log, in order *)
Fixpoint sleeps (log : list event) : list Z :=
  match log with
  | nil => nil
  | Sleep n :: log' => n :: sleeps log'
  | _ :: log' => sleeps log'
  end.

(** [str(z)] for an [int] *)
Definition signed (z : Z) : string :=
  (if z <? 0 then "-" else "") ++ dec (Z.abs z).

(** [logger.error] was called with [what] *)
Definition logged (what : string) (log : list event) : bool :=
  existsb (fun e => match e with
                    | LogError s => String.eqb s what
                    | _ => false
                    end) log.

(** An [int], a [bool] or a [float] *)
Definition is_number (v : json) : bool :=
  match v with
  | JInt _ | JBool _ | JFloat _ => true
  | _ => false
  end.

(** A first pair [get_token_info] can read: an object whose [baseToken]
    is an object with a [name] and a [symbol], and whose [liquidity], if
    present, is an object *)
Definition usable_pair (p : json) : bool :=
  match p with
  | JDict fields =>
      match assoc "baseToken" fields with
      | Some (JDict base) =>
          match assoc "name" base, assoc "symbol" base with
          | Some _, Some _ => liquidity_is_dict fields
          | _, _ => false
          end
      | _ => false
      end
  | _ => false
  end.

(** A social entry the loop can read: an object whose [platform], if
    present, is a string *)
Definition social_ok (social : json) : bool :=
  match social with
  | JDict d =>
      match assoc "platform" d with
      | None | Some (JStr _) => true
      | Some _ => false
      end
  | _ => false
  end.

Definition is_dict (v : json) : bool :=
  match v with JDict _ => true | _ => false end.

(** A website entry that adds no line: an object whose [url] is missing
    or false *)
Definition no_url (website : json) : bool :=
  match website with
  | JDict d => no_entries "url" d
  | _ => false
  end.

(** A social entry that adds no line whatever its platform: an object
    whose [platform] is missing or a string and whose [handle] is missing
    or false *)
Definition no_handle (social : json) : bool :=
  match social with
  | JDict d =>
      match assoc "platform" d with
      | None | Some (JStr _) => no_entries "handle" d
      | Some _ => false
      end
  | _ => false
  end.

Section Status.
(** [datetime.strftime('%Y-%m-%d %H:%M:%S')], left to the interpreter *)
Variable strftime : Z -> string.

(** The text [cmd_status] replies with. *)
Definition status_message (st : bot) : string :=
  "📊 Monitor Status:" ++ nl ++
  "Last check: " ++ strftime (last_check_time st) ++ nl ++
  "Known boosts: " ++ dec (Z.of_nat (size (known_boosts st))) ++ nl ++
  "Check interval: " ++ dec CHECK_INTERVAL ++ " seconds".

End Status.

End Trace.
Import Trace.

(** ** The response behind an outcome *)

Module Http.

(** What [requests.get] returns: a status and a body, which is JSON or
    not. *)
Record response : Type := {
  status_code : Z;
  json_body : option json
}.

(** [requests.get] raised, or returned a response. *)
Inductive reply : Type :=
| NoResponse
| Response (r : response).

(** [raise_for_status] raises for the client and server errors only:
    [400 <= status_code < 600]. *)
Definition raises_for_status (code : Z) : bool :=
  (400 <=? code) && (code <? 600).

(** [requests.get(...)], [response.raise_for_status()],
    [response.json()], in that order. *)
Definition outcome (r : reply) : http_outcome :=
  match r with
  | NoResponse => TransportError
  | Response resp =>
      if raises_for_status (status_code resp) then
        BadStatus (status_code resp)
      else
        match json_body resp with
        | Some data => Body data
        | None => MalformedBody
        end
  end.

End Http.
Import Http.

(** * Properties *)

(** ** What a log says about an identifier *)

Section Traces.
Context {RT : Runtime}.

Lemma notifications_app id l1 l2 :
  notifications id (l1 ++ l2) = (notifications id l1 + notifications id l2)%nat.
Proof. unfold notifications. by rewrite filter_app, length_app. Qed.

Lemma notifications_none id log :
  (forall e, e ∈ log -> is_send e = false) -> notifications id log = 0%nat.
Proof.
  induction log as [|e log IH]; intros H; [done|].
  unfold notifications in *. rewrite filter_cons.
  assert (He : is_send e = false) by (apply H; left).
  destruct e; try discriminate.
  all: destruct (decide _) as [Hs|_]; [simpl in Hs; discriminate|].
  all: apply IH; intros e' He'; apply H; by right.
Qed.

Lemma notifications_pos id log :
  notifications id log <> 0%nat ->
  exists b t d, SendMessage b t d ∈ log /\ boost_id b = Ok id.
Proof.
  induction log as [|e log IH]; [done|].
  unfold notifications in *. rewrite filter_cons.
  destruct (decide (sends id e = true)) as [Hs|Hs].
  - intros _. destruct e as [|b t d|]; try discriminate.
    exists b, t, d. split; [left|].
    simpl in Hs. destruct (boost_id b) as [id'|]; [|discriminate].
    apply String.eqb_eq in Hs. by subst.
  - intros H. destruct (IH H) as (b & t & d & Hin & Hid).
    exists b, t, d. split; [by right|done].
Qed.

(** *** [get_token_info] and [send_notification] *)

Lemma get_token_info_log reply e :
  e ∈ snd (get_token_info reply) -> e = LogError "Error fetching token info".
Proof.
  unfold get_token_info.
  destruct reply as [| | |data]; simpl;
    try (destruct (first_pair_info data) as [r|]; simpl);
    intros H; repeat (apply elem_of_cons in H as [H|H]; [done|]);
    by apply elem_of_nil in H.
Qed.

Lemma build_message_log w i boost e :
  e ∈ fst (build_message w i boost) ->
  e = LogError "Error fetching token info".
Proof.
  unfold build_message.
  destruct (getitem boost "chainId") as [chain|];
    [|by intros H%elem_of_nil].
  destruct (getitem boost "tokenAddress") as [addr|];
    [|by intros H%elem_of_nil].
  destruct (get_token_info _) as [ti log] eqn:E. simpl.
  intros H. apply (get_token_info_log (tokens_reply w i (tokens_url addr))).
  by rewrite E.
Qed.

(** What [send_notification] leaves in the log: the errors of the token
    request, then, when the text could be built, exactly one message, for
    its own boost. *)
Lemma send_notification_shape w i boost :
  exists log,
    build_message w i boost = (log, snd (build_message w i boost)) /\
    match snd (build_message w i boost) with
    | Raise e => send_notification w i boost = (log, Raise e)
    | Ok text =>
        exists tail,
          send_notification w i boost =
            ((log ++ SendMessage boost text (delivers w i text) :: tail)%list,
             Ok tt) /\
          (forall e, e ∈ tail -> is_send e = false)
    end.
Proof.
  unfold send_notification.
  destruct (build_message w i boost) as [log [text|e]]; exists log; simpl.
  - split; [done|]. destruct (delivers w i text).
    + exists nil. split; [done|]. by intros e H%elem_of_nil.
    + exists (LogError "Error sending notification" :: nil). split; [done|].
      intros e H. apply list_elem_of_singleton in H. by subst.
  - done.
Qed.

Lemma send_notification_sends w i boost b t d :
  SendMessage b t d ∈ fst (send_notification w i boost) ->
  b = boost /\ snd (build_message w i boost) = Ok t /\ d = delivers w i t.
Proof.
  destruct (send_notification_shape w i boost) as (log & Hb & H).
  assert (Hlog : forall e, e ∈ log -> is_send e = false).
  { intros e He. rewrite (build_message_log w i boost e); [done|].
    by rewrite Hb. }
  destruct (snd (build_message w i boost)) as [text|e].
  - destruct H as (tail & -> & Htail). simpl.
    intros Hin. apply elem_of_app in Hin as [Hin|Hin].
    { by apply Hlog in Hin. }
    apply elem_of_cons in Hin as [Hin|Hin].
    { by injection Hin as -> -> ->. }
    by apply Htail in Hin.
  - rewrite H. simpl. intros Hin. by apply Hlog in Hin.
Qed.

Lemma send_notification_count w i boost id :
  boost_id boost = Ok id ->
  forall id',
    notifications id' (fst (send_notification w i boost)) =
      if decide (id' = id) then
        (if is_ok (snd (send_notification w i boost)) then 1 else 0)%nat
      else 0%nat.
Proof.
  intros Hid id'.
  destruct (send_notification_shape w i boost) as (log & Hb & H).
  assert (Hlog : notifications id' log = 0%nat).
  { apply notifications_none. intros e He.
    rewrite (build_message_log w i boost e); [done|]. by rewrite Hb. }
  destruct (snd (build_message w i boost)) as [text|e].
  - destruct H as (tail & -> & Htail). simpl.
    rewrite notifications_app, Hlog.
    change (SendMessage boost text (delivers w i text) :: tail)
      with ((SendMessage boost text (delivers w i text) :: nil) ++ tail)%list.
    rewrite notifications_app, (notifications_none id' tail Htail).
    unfold notifications. rewrite filter_cons, filter_nil. simpl.
    rewrite Hid.
    destruct (decide (id' = id)) as [->|Hne].
    + rewrite String.eqb_refl. by rewrite decide_True.
    + apply String.eqb_neq in Hne. rewrite Hne. by rewrite decide_False.
  - rewrite H. simpl. rewrite Hlog. by destruct (decide _).
Qed.

End Traces.

(** ** The loop over the polled boosts *)

Section Loop.
Context {RT : Runtime}.

Lemma for_boosts_cons w i boost rest known :
  for_boosts w i (boost :: rest) known =
    match boost_id boost with
    | Raise e => (known, nil, Raise e)
    | Ok id =>
        if bool_decide (id ∈ known) then for_boosts w (S i) rest known
        else
          match send_notification w i boost with
          | (log, Raise e) => ({[id]} ∪ known, log, Raise e)
          | (log, Ok _) =>
              let '(known', log', r) :=
                for_boosts w (S i) rest ({[id]} ∪ known) in
              (known', (log ++ log')%list, r)
          end
    end.
Proof. reflexivity. Qed.

Lemma for_boosts_seen w i boost rest known id :
  boost_id boost = Ok id -> id ∈ known ->
  for_boosts w i (boost :: rest) known = for_boosts w (S i) rest known.
Proof.
  intros Hid Hin. rewrite for_boosts_cons, Hid.
  by rewrite bool_decide_eq_true_2.
Qed.

Lemma for_boosts_new w i boost rest known id :
  boost_id boost = Ok id -> id ∉ known ->
  for_boosts w i (boost :: rest) known =
    match send_notification w i boost with
    | (log, Raise e) => ({[id]} ∪ known, log, Raise e)
    | (log, Ok _) =>
        let '(known', log', r) :=
          for_boosts w (S i) rest ({[id]} ∪ known) in
        (known', (log ++ log')%list, r)
    end.
Proof.
  intros Hid Hin. rewrite for_boosts_cons, Hid.
  by rewrite bool_decide_eq_false_2.
Qed.

(** Identifiers are only ever added. *)
Lemma for_boosts_known w boosts :
  forall i known known' log r,
    for_boosts w i boosts known = (known', log, r) ->
    known ⊆ known' /\
    known' ⊆ known ∪ list_to_set (ids boosts) /\
    (r = Ok tt -> known' = known ∪ list_to_set (ids boosts)).
Proof.
  induction boosts as [|boost rest IH]; intros i known known' log r.
  - simpl. intros [= <- <- <-]. set_solver.
  - rewrite for_boosts_cons. simpl ids.
    destruct (boost_id boost) as [id|e].
    2:{ intros [= <- <- <-]. set_solver. }
    case_bool_decide as Hin.
    { intros H. destruct (IH _ _ _ _ _ H) as (H1 & H2 & H3).
      repeat split; [done|set_solver|]. intros Hr. rewrite (H3 Hr). set_solver. }
    destruct (send_notification w i boost) as [l1 [[]|e]].
    2:{ intros [= <- <- <-]. set_solver. }
    destruct (for_boosts w (S i) rest ({[id]} ∪ known))
      as [[k2 l2] r2] eqn:E.
    intros [= <- <- <-]. destruct (IH _ _ _ _ _ E) as (H1 & H2 & H3).
    repeat split; [set_solver|set_solver|].
    intros Hr. rewrite (H3 Hr). set_solver.
Qed.

(** A message is sent only for a boost of the list whose identifier was
    not known when the loop started, and is known when it stops. *)
Lemma for_boosts_sends w boosts :
  forall i known known' log r b t d,
    for_boosts w i boosts known = (known', log, r) ->
    SendMessage b t d ∈ log ->
    b ∈ boosts /\
    exists id, boost_id b = Ok id /\ (id ∉ known) /\ id ∈ known'.
Proof.
  induction boosts as [|boost rest IH]; intros i known known' log r b t d.
  - simpl. intros [= <- <- <-] H. by apply elem_of_nil in H.
  - rewrite for_boosts_cons.
    destruct (boost_id boost) as [id|e] eqn:Hid.
    2:{ intros [= <- <- <-] H. by apply elem_of_nil in H. }
    case_bool_decide as Hin.
    { intros H Hs. destruct (IH _ _ _ _ _ _ _ _ H Hs) as (H1 & H2).
      split; [by right|done]. }
    destruct (send_notification w i boost) as [l1 r1] eqn:Es.
    assert (Hl1 : SendMessage b t d ∈ l1 -> b = boost).
    { intros Hs. apply (send_notification_sends w i boost b t d).
      by rewrite Es. }
    destruct r1 as [[]|e].
    2:{ intros [= <- <- <-] Hs. rewrite (Hl1 Hs).
        split; [left|]. exists id. set_solver. }
    destruct (for_boosts w (S i) rest ({[id]} ∪ known))
      as [[k2 l2] r2] eqn:E.
    pose proof (for_boosts_known _ _ _ _ _ _ _ E) as (Hmono & _).
    intros [= <- <- <-] Hs. apply elem_of_app in Hs as [Hs|Hs].
    + rewrite (Hl1 Hs). split; [left|]. exists id. set_solver.
    + destruct (IH _ _ _ _ _ _ _ _ E Hs) as (H1 & id' & H2 & H3 & H4).
      split; [by right|]. exists id'. set_solver.
Qed.

(** How many messages the loop sends for an identifier. *)
Lemma for_boosts_count w boosts :
  forall i known known' log r id,
    for_boosts w i boosts known = (known', log, r) ->
    (notifications id log <= 1)%nat /\
    (id ∈ known -> notifications id log = 0%nat) /\
    (id ∉ ids boosts -> notifications id log = 0%nat) /\
    (r = Ok tt -> id ∉ known -> id ∈ ids boosts ->
     notifications id log = 1%nat).
Proof.
  induction boosts as [|boost rest IH]; intros i known known' log r id.
  - simpl. intros [= <- <- <-]. repeat split; try done.
    + unfold notifications. simpl. lia.
    + intros _ _ H. by apply elem_of_nil in H.
  - rewrite for_boosts_cons. simpl ids.
    destruct (boost_id boost) as [id0|e] eqn:Hid.
    2:{ intros [= <- <- <-]. repeat split; try done.
        unfold notifications; simpl; lia. }
    case_bool_decide as Hin.
    { intros H. destruct (IH _ _ _ _ _ id H) as (H1 & H2 & H3 & H4).
      repeat split; [done|done| |].
      - intros Hn. apply H3. set_solver.
      - intros Hr Hk Hi. apply H4; [done|done|]. set_solver. }
    destruct (send_notification w i boost) as [l1 r1] eqn:Es.
    pose proof (send_notification_count w i boost id0 Hid id) as Hc.
    rewrite Es in Hc. simpl in Hc.
    destruct r1 as [[]|e].
    2:{ intros [= <- <- <-]. rewrite Hc.
        destruct (decide (id = id0)); simpl; repeat split; try done; lia. }
    destruct (for_boosts w (S i) rest ({[id0]} ∪ known))
      as [[k2 l2] r2] eqn:E.
    intros [= <- <- <-]. rewrite notifications_app, Hc.
    destruct (IH _ _ _ _ _ id E) as (H1 & H2 & H3 & H4).
    destruct (decide (id = id0)) as [->|Hne]; simpl.
    + rewrite H2 by set_solver. repeat split; try done; try lia.
      intros Hn. destruct Hn. left.
    + repeat split; [done| | |].
      * intros Hk. apply H2. set_solver.
      * intros Hn. apply H3. set_solver.
      * intros Hr Hk Hi. apply H4; [done|set_solver|set_solver].
Qed.

(** When the loop runs to its end, every boost of the list has an
    identifier. *)
Lemma for_boosts_ok_ids w boosts :
  forall i known known' log b,
    for_boosts w i boosts known = (known', log, Ok tt) ->
    b ∈ boosts -> exists id, boost_id b = Ok id /\ id ∈ ids boosts.
Proof.
  induction boosts as [|boost rest IH]; intros i known known' log b.
  - intros _ H. by apply elem_of_nil in H.
  - rewrite for_boosts_cons. simpl ids.
    destruct (boost_id boost) as [id|e] eqn:Hid; [|discriminate].
    assert (Hrest : forall i k k' l, for_boosts w i rest k = (k', l, Ok tt) ->
                    b ∈ boost :: rest ->
                    exists id', boost_id b = Ok id' /\ id' ∈ id :: ids rest).
    { intros i' k k' l H Hb. apply elem_of_cons in Hb as [->|Hb].
      - exists id. split; [done|left].
      - destruct (IH _ _ _ _ _ H Hb) as (id' & H1 & H2).
        exists id'. split; [done|by right]. }
    case_bool_decide as Hin.
    { intros H Hb. exact (Hrest _ _ _ _ H Hb). }
    destruct (send_notification w i boost) as [l1 [[]|e]]; [|discriminate].
    destruct (for_boosts w (S i) rest ({[id]} ∪ known))
      as [[k2 l2] r2] eqn:E.
    intros [= <- <- ->] Hb. exact (Hrest _ _ _ _ E Hb).
Qed.

(** The loop over a list in two parts. *)
Lemma for_boosts_app w pre rest :
  forall i known,
    for_boosts w i (pre ++ rest) known =
      match for_boosts w i pre known with
      | (known1, log1, Ok _) =>
          let '(known2, log2, r) :=
            for_boosts w (i + length pre) rest known1 in
          (known2, (log1 ++ log2)%list, r)
      | (known1, log1, Raise e) => (known1, log1, Raise e)
      end.
Proof.
  induction pre as [|boost pre IH]; intros i known.
  - simpl. rewrite Nat.add_0_r. by destruct (for_boosts w i rest known) as [[? ?] ?].
  - change ((boost :: pre) ++ rest)%list with (boost :: (pre ++ rest))%list.
    rewrite !for_boosts_cons.
    destruct (boost_id boost) as [id|e]; [|done].
    replace (i + length (boost :: pre))%nat with (S i + length pre)%nat
      by (simpl; lia).
    case_bool_decide as Hin; [by rewrite IH|].
    destruct (send_notification w i boost) as [l1 [[]|e]]; [|done].
    rewrite IH.
    destruct (for_boosts w (S i) pre ({[id]} ∪ known)) as [[k1 l1'] [[]|e]];
      [|done].
    destruct (for_boosts w (S i + length pre) rest k1) as [[k2 l2] r2].
    by rewrite app_assoc.
Qed.

(** The loop runs to its end when every boost has an identifier and a
    text that can be built, whatever the deliveries come to. *)
Lemma for_boosts_completes w boosts :
  forall i known,
    (forall j b, boosts !! j = Some b ->
       is_ok (boost_id b) = true /\
       is_ok (snd (build_message w (i + j) b)) = true) ->
    snd (for_boosts w i boosts known) = Ok tt.
Proof.
  induction boosts as [|boost rest IH]; intros i known Hall; [done|].
  rewrite for_boosts_cons.
  destruct (Hall 0%nat boost eq_refl) as (Hid & Hb).
  assert (Hrest : forall k, snd (for_boosts w (S i) rest k) = Ok tt).
  { intros k. apply IH. intros j b Hj.
    replace (S i + j)%nat with (i + S j)%nat by lia. by apply Hall. }
  destruct (boost_id boost) as [id|e]; [|done].
  case_bool_decide as Hin; [by apply Hrest|].
  rewrite Nat.add_0_r in Hb.
  destruct (send_notification_shape w i boost) as (log & _ & H).
  destruct (snd (build_message w i boost)) as [text|e]; [|done].
  destruct H as (tail & -> & _).
  specialize (Hrest ({[id]} ∪ known)).
  by destruct (for_boosts w (S i) rest ({[id]} ∪ known)) as [[? ?] ?].
Qed.

(** *** One cycle *)

Lemma cycle_run_loop w st :
  cycle w st =
    let '(known, log, r) := run_loop w st in
    ({| known_boosts := known;
        last_check_time := if is_ok r then now w else last_check_time st |},
     (snd (get_latest_boosts (boosts_reply w)) ++ log ++ cycle_tail r)%list).
Proof.
  unfold cycle, run_loop, polled.
  destruct (get_latest_boosts (boosts_reply w)) as [latest log0]. simpl.
  by destruct (for_boosts w 0 (as_list latest) (known_boosts st))
    as [[known log1] [[]|e]].
Qed.

Lemma get_latest_boosts_log reply e :
  e ∈ snd (get_latest_boosts reply) -> is_send e = false.
Proof.
  destruct reply; simpl; intros H;
    repeat (apply elem_of_cons in H as [->|H]; [done|]);
    by apply elem_of_nil in H.
Qed.

Lemma cycle_tail_log r e : e ∈ cycle_tail r -> is_send e = false.
Proof.
  destruct r; simpl; intros H;
    repeat (apply elem_of_cons in H as [->|H]; [done|]);
    by apply elem_of_nil in H.
Qed.

(** The messages of a cycle are those of its loop. *)
Lemma cycle_sends_loop w st b t d :
  SendMessage b t d ∈ snd (cycle w st) <->
  SendMessage b t d ∈ snd (fst (run_loop w st)).
Proof.
  rewrite cycle_run_loop. destruct (run_loop w st) as [[known log] r]. simpl.
  rewrite !elem_of_app. split; [|by auto].
  intros [H|[H|H]]; [|done|].
  - by apply get_latest_boosts_log in H.
  - by apply cycle_tail_log in H.
Qed.

Lemma cycle_notifications w st id :
  notifications id (snd (cycle w st)) =
  notifications id (snd (fst (run_loop w st))).
Proof.
  rewrite cycle_run_loop. destruct (run_loop w st) as [[known log] r]. simpl.
  rewrite !notifications_app.
  rewrite (notifications_none id (snd _)) by apply get_latest_boosts_log.
  rewrite (notifications_none id (cycle_tail r)) by apply cycle_tail_log.
  lia.
Qed.

Lemma cycle_known w st :
  known_boosts (fst (cycle w st)) = fst (fst (run_loop w st)).
Proof.
  rewrite cycle_run_loop. by destruct (run_loop w st) as [[known log] r].
Qed.

Lemma run_loop_eq w st :
  for_boosts w 0 (polled w) (known_boosts st) =
    (fst (fst (run_loop w st)), snd (fst (run_loop w st)), snd (run_loop w st)).
Proof. unfold run_loop. by destruct (for_boosts _ _ _ _) as [[? ?] ?]. Qed.

Lemma cycle_keeps_known w st :
  known_boosts st ⊆ known_boosts (fst (cycle w st)).
Proof.
  rewrite cycle_known.
  by destruct (for_boosts_known _ _ _ _ _ _ _ (run_loop_eq w st)) as (H & _).
Qed.

Lemma cycle_sends_fresh w st b t d :
  SendMessage b t d ∈ snd (cycle w st) ->
  b ∈ polled w /\
  exists id, boost_id b = Ok id /\ (id ∉ known_boosts st) /\
             id ∈ known_boosts (fst (cycle w st)).
Proof.
  rewrite cycle_sends_loop, cycle_known.
  apply (for_boosts_sends _ _ _ _ _ _ _ _ _ _ (run_loop_eq w st)).
Qed.

(** *** Any number of cycles *)

Lemma monitor_boosts_cons w ws st :
  monitor_boosts (w :: ws) st =
    (fst (monitor_boosts ws (fst (cycle w st))),
     (snd (cycle w st) ++ snd (monitor_boosts ws (fst (cycle w st))))%list).
Proof.
  simpl. destruct (cycle w st) as [st1 log1]. simpl.
  by destruct (monitor_boosts ws st1) as [st2 log2].
Qed.


Lemma monitor_sends_fresh ws :
  forall st b t d,
    SendMessage b t d ∈ snd (monitor_boosts ws st) ->
    exists id, boost_id b = Ok id /\ id ∉ known_boosts st.
Proof.
  induction ws as [|w ws IH]; intros st b t d.
  - simpl. by intros H%elem_of_nil.
  - rewrite monitor_boosts_cons. simpl. intros [H|H]%elem_of_app.
    + destruct (cycle_sends_fresh _ _ _ _ _ H) as (_ & id & H1 & H2 & _).
      by exists id.
    + destruct (IH _ _ _ _ H) as (id & H1 & H2). exists id. split; [done|].
      intros Hin. apply H2. by apply cycle_keeps_known.
Qed.

End Loop.

(** ** Deduplication *)

Section Dedup.
Context {RT : Runtime}.

Lemma is_ok_unit (r : result unit) : is_ok r = true -> r = Ok tt.
Proof. by destruct r as [[]|e]. Qed.

Lemma polled_same_reply w1 w2 :
  boosts_reply w2 = boosts_reply w1 -> polled w2 = polled w1.
Proof. unfold polled. by intros ->. Qed.


End Dedup.

(** ** Failures *)

Section Failures.
Context {RT : Runtime}.

(** The loop of a cycle, seen from the boost at which something happens:
    the boosts before it were processed, its identifier is new. *)
Lemma run_loop_at w st pre boost post known1 log1 id :
  polled w = (pre ++ boost :: post)%list ->
  for_boosts w 0 pre (known_boosts st) = (known1, log1, Ok tt) ->
  boost_id boost = Ok id ->
  id ∉ known1 ->
  run_loop w st =
    match send_notification w (length pre) boost with
    | (log, Raise e) => ({[id]} ∪ known1, (log1 ++ log)%list, Raise e)
    | (log, Ok _) =>
        let '(known2, log2, r) :=
          for_boosts w (S (length pre)) post ({[id]} ∪ known1) in
        (known2, (log1 ++ log ++ log2)%list, r)
    end.
Proof.
  intros Hp Hpre Hid Hnew. unfold run_loop.
  rewrite Hp, for_boosts_app, Hpre, for_boosts_cons, Hid. simpl.
  rewrite bool_decide_eq_false_2 by done.
  destruct (send_notification w (length pre) boost) as [log [[]|e]]; [|done].
  by destruct (for_boosts w (S (length pre)) post ({[id]} ∪ known1))
    as [[known2 log2] r].
Qed.

Lemma no_message_before w i pre known known1 log1 r id :
  for_boosts w i pre known = (known1, log1, r) ->
  id ∉ known1 -> notifications id log1 = 0%nat.
Proof.
  intros E Hnew.
  destruct (decide (notifications id log1 = 0%nat)) as [|Hpos]; [done|].
  destruct (notifications_pos _ _ Hpos) as (b & t & d & Hin & Hb).
  destruct (for_boosts_sends _ _ _ _ _ _ _ _ _ _ E Hin)
    as (_ & id' & Hb' & _ & Hin').
  rewrite Hb in Hb'. injection Hb' as <-. done.
Qed.

Lemma monitor_no_message ws st id :
  id ∈ known_boosts st -> notifications id (snd (monitor_boosts ws st)) = 0%nat.
Proof.
  intros Hin.
  destruct (decide (notifications id (snd (monitor_boosts ws st)) = 0%nat))
    as [|Hpos]; [done|].
  destruct (notifications_pos _ _ Hpos) as (b & t & d & Hs & Hb).
  destruct (monitor_sends_fresh _ _ _ _ _ Hs) as (id' & Hb' & Hn).
  rewrite Hb in Hb'. injection Hb' as <-. done.
Qed.

(** C10. The identifier of a new boost is added to [known_boosts] before
    [send_notification] is called.  Whatever that call comes to, the
    identifier is known after the cycle and no later cycle sends a message
    for it; when the call raises no message was ever sent for it, and when
    the delivery fails no message for it is ever delivered. *)
Theorem marked_seen_before_notifying
    (w : world) (st : bot) (pre : list json) (boost : json)
    (post : list json) (known1 : gset string) (log1 : list event)
    (id : string) :
  polled w = (pre ++ boost :: post)%list ->
  for_boosts w 0 pre (known_boosts st) = (known1, log1, Ok tt) ->
  boost_id boost = Ok id ->
  id ∉ known1 ->
  id ∈ known_boosts (fst (cycle w st)) /\
  (forall ws,
     notifications id (snd (monitor_boosts ws (fst (cycle w st)))) = 0%nat) /\
  (forall e,
     snd (send_notification w (length pre) boost) = Raise e ->
     known_boosts (fst (cycle w st)) = {[id]} ∪ known1 /\
     forall ws, notifications id (snd (monitor_boosts (w :: ws) st)) = 0%nat) /\
  (forall text,
     snd (build_message w (length pre) boost) = Ok text ->
     delivers w (length pre) text = false ->
     SendMessage boost text false ∈ snd (cycle w st) /\
     forall ws b t,
       boost_id b = Ok id ->
       SendMessage b t true ∉ snd (monitor_boosts (w :: ws) st)).
Proof.
  intros Hp Hpre Hid Hnew.
  pose proof (run_loop_at _ _ _ _ _ _ _ _ Hp Hpre Hid Hnew) as Hloop.
  assert (Hknown : id ∈ known_boosts (fst (cycle w st))).
  { rewrite cycle_known, Hloop.
    destruct (send_notification w (length pre) boost) as [log [[]|e]].
    - destruct (for_boosts w (S (length pre)) post ({[id]} ∪ known1))
        as [[known2 log2] r] eqn:E. simpl.
      destruct (for_boosts_known _ _ _ _ _ _ _ E) as (Hm & _). set_solver.
    - simpl. set_solver. }
  assert (Hlater : forall ws,
    notifications id (snd (monitor_boosts ws (fst (cycle w st)))) = 0%nat).
  { intros ws. by apply monitor_no_message. }
  assert (Hzero1 : notifications id log1 = 0%nat)
    by exact (no_message_before _ _ _ _ _ _ _ _ Hpre Hnew).
  split; [done|]. split; [done|]. split.
  - intros e He. split.
    + rewrite cycle_known, Hloop.
      destruct (send_notification w (length pre) boost) as [log r].
      simpl in He. by rewrite He.
    + intros ws. rewrite monitor_boosts_cons. simpl.
      rewrite notifications_app, Hlater, cycle_notifications, Hloop.
      pose proof (send_notification_count w (length pre) boost id Hid id)
        as Hc.
      destruct (send_notification w (length pre) boost) as [log r].
      simpl in He. rewrite He in *. simpl in *.
      rewrite decide_True in Hc by done.
      rewrite notifications_app, Hzero1, Hc. lia.
  - intros text Ht Hd. split.
    + rewrite cycle_sends_loop, Hloop.
      destruct (send_notification_shape w (length pre) boost)
        as (lb & _ & Hs).
      rewrite Ht in Hs. destruct Hs as (tail & -> & _). rewrite Hd.
      destruct (for_boosts w (S (length pre)) post ({[id]} ∪ known1))
        as [[known2 log2] r]. simpl.
      rewrite !elem_of_app, elem_of_cons. by auto.
    + intros ws b t Hb. rewrite monitor_boosts_cons. simpl.
      rewrite elem_of_app. intros [Hs|Hs].
      * apply cycle_sends_loop in Hs. rewrite Hloop in Hs.
        destruct (send_notification w (length pre) boost) as [lb rb] eqn:Es.
        assert (Hlb : SendMessage b t true ∉ lb).
        { intros Hin.
          destruct (send_notification_sends w (length pre) boost b t true)
            as (_ & Ht' & Hd'); [by rewrite Es|].
          rewrite Ht in Ht'. injection Ht' as <-. congruence. }
        assert (Hl1 : SendMessage b t true ∉ log1).
        { intros Hin.
          destruct (for_boosts_sends _ _ _ _ _ _ _ _ _ _ Hpre Hin)
            as (_ & id' & Hb' & _ & Hin').
          rewrite Hb in Hb'. injection Hb' as <-. done. }
        destruct rb as [[]|e'].
        -- destruct (for_boosts w (S (length pre)) post ({[id]} ∪ known1))
             as [[known2 log2] r] eqn:E. simpl in Hs.
           rewrite !elem_of_app in Hs.
           destruct Hs as [Hs|[Hs|Hs]]; [done|done|].
           destruct (for_boosts_sends _ _ _ _ _ _ _ _ _ _ E Hs)
             as (_ & id' & Hb' & Hn' & _).
           rewrite Hb in Hb'. injection Hb' as <-. set_solver.
        -- simpl in Hs. rewrite elem_of_app in Hs. by destruct Hs.
      * destruct (monitor_sends_fresh _ _ _ _ _ Hs) as (id' & Hb' & Hn).
        rewrite Hb in Hb'. injection Hb' as <-. done.
Qed.

End Failures.

Section Cycle.
Context {RT : Runtime}.

Lemma failed_poll reply :
  failed reply = true ->
  get_latest_boosts reply = (JList nil, LogError "Error fetching boosts" :: nil).
Proof. by destruct reply. Qed.

(** C2, as the code has it.  When the poll fails [get_latest_boosts]
    returns an empty list: the cycle leaves [known_boosts] as it was, sends
    nothing, sets [last_check_time] to the current time, and the loop goes
    on to its idle wait and to the next cycle. *)
Theorem failed_poll_cycle (w : world) (st : bot) :
  failed (boosts_reply w) = true ->
  let st' := {| known_boosts := known_boosts st; last_check_time := now w |} in
  let log := LogError "Error fetching boosts" :: Sleep CHECK_INTERVAL :: nil in
  cycle w st = (st', log) /\
  forall ws,
    monitor_boosts (w :: ws) st =
      (fst (monitor_boosts ws st'), (log ++ snd (monitor_boosts ws st'))%list).
Proof.
  intros Hf st' log.
  assert (Hc : cycle w st = (st', log)).
  { unfold cycle. by rewrite (failed_poll _ Hf). }
  split; [done|]. intros ws. by rewrite monitor_boosts_cons, Hc.
Qed.

(** C3, as the code has it.  The delivery of a message never raises, and
    a failed request for the token information is not an exception: the
    fallback text is built.  So when the text of every boost can be built,
    the loop reaches every boost and each new identifier gets its message,
    whatever the requests and the deliveries come to.  An exception raised
    while the identifier or the text of a boost is computed leaves the
    loop: the cycle ends there, with the identifiers added so far, the
    timestamp as it was, and the error logged before the idle wait. *)
Theorem failures_within_a_cycle (w : world) (st : bot) :
  (forall i b,
     is_ok (snd (send_notification w i b))
     = is_ok (snd (build_message w i b))) /\
  (forall i b chain addr,
     getitem b "chainId" = Ok chain ->
     getitem b "tokenAddress" = Ok addr ->
     fst (get_token_info (tokens_reply w i (tokens_url addr))) = None ->
     snd (build_message w i b) = fallback_message b) /\
  ((forall j b,
      polled w !! j = Some b ->
      is_ok (boost_id b) = true /\
      is_ok (snd (build_message w j b)) = true) ->
   completed w st = true /\
   forall id,
     id ∈ ids (polled w) -> id ∉ known_boosts st ->
     notifications id (snd (cycle w st)) = 1%nat) /\
  (forall pre boost post known1 log1,
     polled w = (pre ++ boost :: post)%list ->
     for_boosts w 0 pre (known_boosts st) = (known1, log1, Ok tt) ->
     (forall e,
        boost_id boost = Raise e ->
        cycle w st =
          ({| known_boosts := known1; last_check_time := last_check_time st |},
           (snd (get_latest_boosts (boosts_reply w)) ++ log1 ++
            LogError "Error in monitoring loop"
            :: Sleep CHECK_INTERVAL :: nil)%list)) /\
     (forall id e,
        boost_id boost = Ok id -> id ∉ known1 ->
        snd (build_message w (length pre) boost) = Raise e ->
        cycle w st =
          ({| known_boosts := {[id]} ∪ known1;
              last_check_time := last_check_time st |},
           (snd (get_latest_boosts (boosts_reply w)) ++ log1 ++
            fst (build_message w (length pre) boost) ++
            LogError "Error in monitoring loop"
            :: Sleep CHECK_INTERVAL :: nil)%list))).
Proof.
  split; [|split; [|split]].
  - intros i b. destruct (send_notification_shape w i b) as (log & _ & H).
    destruct (snd (build_message w i b)) as [text|e].
    + by destruct H as (tail & -> & _).
    + by rewrite H.
  - intros i b chain addr Hc Ha Hnone. unfold build_message.
    rewrite Hc, Ha.
    destruct (get_token_info (tokens_reply w i (tokens_url addr)))
      as [ti log]. simpl in *. by subst ti.
  - intros Hall.
    assert (Hok : snd (run_loop w st) = Ok tt).
    { apply for_boosts_completes. intros j b Hj. by apply Hall. }
    split; [unfold completed; by rewrite Hok|].
    intros id Hin Hnew. rewrite cycle_notifications.
    pose proof (run_loop_eq w st) as E. rewrite Hok in E.
    destruct (for_boosts_count _ _ _ _ _ _ _ id E) as (_ & _ & _ & Hone).
    by apply Hone.
  - intros pre boost post known1 log1 Hp Hpre. split.
    + intros e He. rewrite cycle_run_loop. unfold run_loop.
      rewrite Hp, for_boosts_app, Hpre, for_boosts_cons, He. simpl.
      by rewrite app_nil_r.
    + intros id e Hid Hnew He. rewrite cycle_run_loop.
      rewrite (run_loop_at _ _ _ _ _ _ _ _ Hp Hpre Hid Hnew).
      destruct (send_notification_shape w (length pre) boost)
        as (lb & Hb & Hs).
      rewrite He in Hs. rewrite Hs, Hb. simpl. by rewrite <- app_assoc.
Qed.

(** The poll, by the outcome of the request: [get_latest_boosts]
    returns an empty list when the request raised, and the cycle turns
    what it returns into a list before the loop over the boosts starts: a
    list is kept, anything else becomes the list of that one object. *)
Theorem poll_is_normalized (reply : http_outcome) :
  (failed reply = true ->
   fst (get_latest_boosts reply) = JList nil /\
   as_list (fst (get_latest_boosts reply)) = nil) /\
  (forall l,
     reply = Body (JList l) -> as_list (fst (get_latest_boosts reply)) = l) /\
  (forall v,
     reply = Body v -> (forall l, v <> JList l) ->
     as_list (fst (get_latest_boosts reply)) = v :: nil) /\
  (forall w st,
     boosts_reply w = reply ->
     known_boosts (fst (cycle w st))
     = fst (fst (for_boosts w 0 (as_list (fst (get_latest_boosts reply)))
                            (known_boosts st)))).
Proof.
  split; [|split; [|split]].
  - intros Hf. by rewrite (failed_poll _ Hf).
  - by intros l ->.
  - intros v -> Hv. destruct v; try done. by destruct (Hv l).
  - intros w st <-. apply cycle_known.
Qed.

(** C9. The identifier joins the chain and the address with an
    underscore, so two different pairs can have the same one: the pairs
    (a, b_c) and (a_b, c) both give a_b_c.  A bot that has seen nothing and
    is presented both in one poll sends no message for the second, and
    remembers a single identifier. *)
Theorem boost_id_collision :
  let boost1 := JDict (("chainId", JStr "a") :: ("tokenAddress", JStr "b_c")
                        :: ("amount", JInt 1) :: ("totalAmount", JInt 1) :: nil) in
  let boost2 := JDict (("chainId", JStr "a_b") :: ("tokenAddress", JStr "c")
                        :: ("amount", JInt 1) :: ("totalAmount", JInt 1) :: nil) in
  ("a", "b_c") <> ("a_b", "c") /\
  boost_id boost1 = Ok "a_b_c" /\
  boost_id boost2 = Ok "a_b_c" /\
  forall tokens deliveries clock t0,
    let w := {| boosts_reply := Body (JList (boost1 :: boost2 :: nil));
                tokens_reply := tokens; delivers := deliveries;
                now := clock |} in
    let st := {| known_boosts := ∅; last_check_time := t0 |} in
    (forall text d, SendMessage boost2 text d ∉ snd (cycle w st)) /\
    known_boosts (fst (cycle w st)) = {["a_b_c"]}.
Proof.
  intros boost1 boost2.
  split; [done|]. split; [done|]. split; [done|].
  intros tokens deliveries clock t0 w st.
  assert (Hloop : run_loop w st =
            match send_notification w 0 boost1 with
            | (log, Raise e) => ({["a_b_c"]} ∪ ∅, log, Raise e)
            | (log, Ok _) => ({["a_b_c"]} ∪ ∅, (log ++ nil)%list, Ok tt)
            end).
  { unfold run_loop, polled.
    cbn [w st boosts_reply get_latest_boosts fst as_list known_boosts].
    rewrite (for_boosts_new w 0 boost1 _ ∅ "a_b_c") by set_solver.
    destruct (send_notification w 0 boost1) as [l1 [[]|e]]; [|done].
    by rewrite (for_boosts_seen w 1 boost2 _ _ "a_b_c") by set_solver. }
  split.
  - intros text d. rewrite cycle_sends_loop, Hloop.
    destruct (send_notification w 0 boost1) as [l1 r1] eqn:Es.
    assert (Hl1 : SendMessage boost2 text d ∉ l1).
    { intros Hin.
      destruct (send_notification_sends w 0 boost1 boost2 text d)
        as (Hb & _); [by rewrite Es|]. discriminate Hb. }
    destruct r1 as [[]|e]; simpl; [|done].
    by rewrite app_nil_r.
  - rewrite cycle_known, Hloop.
    destruct (send_notification w 0 boost1) as [l1 [[]|e]]; simpl; set_solver.
Qed.

End Cycle.

(** ** The token information *)

(** C8. [get_token_info] returns [None] when the request fails, when
    anything raises, and when the response has no pairs; when it has pairs
    the information is built from the first one, with the defaults of the
    code for the fields that are missing. *)
Theorem get_token_info_first_pair :
  (forall reply, failed reply = true -> fst (get_token_info reply) = None) /\
  (forall data e,
     first_pair_info data = Raise e ->
     fst (get_token_info (Body data)) = None) /\
  (forall d,
     assoc "pairs" d = None \/ assoc "pairs" d = Some (JList nil) ->
     get_token_info (Body (JDict d)) = (None, nil)) /\
  (forall d pair rest base nm sy,
     assoc "pairs" d = Some (JList (JDict pair :: rest)) ->
     assoc "baseToken" pair = Some (JDict base) ->
     assoc "name" base = Some nm ->
     assoc "symbol" base = Some sy ->
     liquidity_is_dict pair = true ->
     get_token_info (Body (JDict d)) =
       (Some {| name := nm;
                symbol := sy;
                market_cap := default (JInt 0) (assoc "marketCap" pair);
                fdv := default (JInt 0) (assoc "fdv" pair);
                price_usd := default (JStr "0") (assoc "priceUsd" pair);
                liquidity_usd := liquidity_usd_of pair;
                info := default (JDict nil) (assoc "info" pair) |},
        nil)).
Proof.
  split; [|split; [|split]].
  - intros reply Hf. by destruct reply.
  - intros data e He. simpl. by rewrite He.
  - intros d [H|H]; unfold get_token_info, first_pair_info; simpl;
      by rewrite H.
  - intros d pair rest base nm sy Hp Hb Hn Hs Hl.
    unfold get_token_info, first_pair_info. simpl. rewrite Hp. simpl.
    rewrite Hb. simpl. rewrite Hn, Hs. simpl.
    unfold liquidity_is_dict in Hl. unfold liquidity_usd_of.
    destruct (assoc "liquidity" pair) as [[]|]; try discriminate; simpl.
    + by repeat case_match.
    + by repeat case_match.
Qed.

(** ** Texts *)

Section Text.

#[local] Arguments String.append !s1 s2 : simpl nomatch.

Lemma starts_with_sep p : forall u x v,
  has x p = false -> starts_with p (u ++ String x v) = starts_with p u.
Proof.
  induction p as [|a p IH]; intros u x v Hx; [by destruct u|].
  simpl in Hx. apply orb_false_elim in Hx as [Hxa Hxp].
  destruct u as [|b u]; simpl.
  - rewrite Ascii.eqb_sym in Hxa. by rewrite Hxa.
  - by rewrite IH.
Qed.

(** A character that is not in [p] separates the places where [p] can
    occur. *)
Lemma occurs_sep p u x v :
  has x p = false ->
  occurs p (u ++ String x v) = occurs p u || occurs p v.
Proof.
  intros Hx. induction u as [|b u IH].
  - pose proof (starts_with_sep p "" x v Hx) as E. simpl in *. rewrite E.
    by destruct (starts_with p ""), (occurs p v).
  - change (occurs p (String b u ++ String x v))
      with (starts_with p (String b (u ++ String x v))
            || occurs p (u ++ String x v)).
    change (String b (u ++ String x v)) with (String b u ++ String x v).
    rewrite (starts_with_sep p (String b u) x v Hx), IH. simpl.
    by rewrite orb_assoc.
Qed.

Lemma starts_with_has p : forall s c,
  starts_with p s = true -> has c p = true -> has c s = true.
Proof.
  induction p as [|a p IH]; intros s c Hp Hc; [done|].
  destruct s as [|b s]; [done|]. simpl in *.
  apply andb_prop in Hp as [Hab Hp]. apply Ascii.eqb_eq in Hab as ->.
  apply orb_prop in Hc as [Hc|Hc]; [by rewrite Hc|].
  rewrite (IH _ _ Hp Hc). by rewrite orb_true_r.
Qed.

(** [p] does not occur in a string that lacks one of its characters. *)
Lemma occurs_absent p s c :
  has c p = true -> has c s = false -> occurs p s = false.
Proof.
  intros Hp. induction s as [|b s IH]; intros Hs.
  - simpl. destruct (starts_with p "") eqn:E; [|done].
    by rewrite (starts_with_has _ _ _ E Hp) in Hs.
  - simpl. destruct (starts_with p (String b s)) eqn:E.
    + by rewrite (starts_with_has _ _ _ E Hp) in Hs.
    + simpl in Hs. apply orb_false_elim in Hs as [_ Hs]. by apply IH.
Qed.

Lemma all_in_app alphabet s1 s2 :
  all_in alphabet (s1 ++ s2) = all_in alphabet s1 && all_in alphabet s2.
Proof.
  induction s1 as [|b s1 IH]; [done|]. simpl. by rewrite IH, andb_assoc.
Qed.

Lemma all_in_has alphabet s c :
  all_in alphabet s = true -> has c alphabet = false -> has c s = false.
Proof.
  intros Hs Hc. induction s as [|b s IH]; [done|]. simpl in *.
  apply andb_prop in Hs as [Hb Hs]. rewrite (IH Hs), orb_false_r.
  destruct (Ascii.eqb_spec c b) as [->|]; [congruence|done].
Qed.

(** *** The characters of a formatted number *)

Lemma digits_alphabet u :
  all_in number_alphabet (NilEmpty.string_of_uint u) = true.
Proof. induction u; simpl; by rewrite ?IHu. Qed.

Lemma dec_alphabet n : all_in number_alphabet (dec n) = true.
Proof.
  unfold dec, NilZero.string_of_uint.
  destruct (N.to_uint (Z.to_N n)) eqn:E; try done.
  all: rewrite <- E; apply digits_alphabet.
Qed.

Lemma zeros_alphabet n : all_in number_alphabet (zeros n) = true.
Proof. induction n; [done|]. simpl. by rewrite IHn. Qed.

Lemma fixed_alphabet d n : all_in number_alphabet (fixed d n) = true.
Proof.
  unfold fixed, pad. rewrite all_in_app, dec_alphabet.
  destruct d; [done|].
  by rewrite all_in_app, all_in_app, zeros_alphabet, dec_alphabet.
Qed.

Lemma format_f_alphabet d x : all_in number_alphabet (format_f d x) = true.
Proof.
  destruct x as [s|s| |s m e]; simpl; try done.
  - rewrite all_in_app, fixed_alphabet. by destruct s.
  - by destruct s.
  - rewrite all_in_app, fixed_alphabet. by destruct s.
Qed.

Lemma format_number_alphabet num s :
  format_number num = Ok s -> all_in number_alphabet s = true.
Proof.
  unfold format_number, bind.
  assert (Hsuffix : forall q suffix,
            all_in number_alphabet suffix = true ->
            all_in number_alphabet ("$" ++ format_f 2 q ++ suffix) = true).
  { intros q suffix H.
    change ("$" ++ format_f 2 q ++ suffix)
      with (String "$" (format_f 2 q ++ suffix)).
    simpl. by rewrite all_in_app, format_f_alphabet, H. }
  destruct (ge_lit num 1000000000) as [[]|]; [| |done].
  { destruct (truediv_lit num 1000000000) as [q|]; [|done].
    intros [= <-]. by apply Hsuffix. }
  destruct (ge_lit num 1000000) as [[]|]; [| |done].
  { destruct (truediv_lit num 1000000) as [q|]; [|done].
    intros [= <-]. by apply Hsuffix. }
  destruct (ge_lit num 1000) as [[]|]; [| |done].
  { destruct (truediv_lit num 1000) as [q|]; [|done].
    intros [= <-]. by apply Hsuffix. }
  unfold format_fixed, bind.
  destruct num as [|b|z|f|t|l|d]; try done.
  - destruct (float_of_int (int_of_bool b)) as [x|] eqn:E; [|done].
    intros [= <-]. simpl. apply format_f_alphabet.
  - destruct (float_of_int z) as [x|] eqn:E; [|done].
    intros [= <-]. simpl. apply format_f_alphabet.
  - intros [= <-]. simpl. apply format_f_alphabet.
Qed.

End Text.

(** ** The messages *)

Section Messages.
Context {RT : Runtime}.

#[local] Arguments String.append !s1 s2 : simpl nomatch.

(** The section titles of the full text occur in the reduced text only
    if the chain or the address spell them. *)
Lemma reduced_text_sections p chain address amount total :
  p = "Token Metrics" \/ p = "Social Links" ->
  all_in number_alphabet amount = true ->
  all_in number_alphabet total = true ->
  occurs p (reduced_text chain address amount total)
  = occurs p chain || occurs p address.
Proof.
  intros Hp Ha Ht.
  assert (Hnum : forall s,
            all_in number_alphabet s = true -> occurs p s = false).
  { intros s Hs. apply (occurs_absent p s "c").
    - by destruct Hp as [-> | ->].
    - by apply (all_in_has number_alphabet). }
  unfold reduced_text, nl.
  destruct Hp as [-> | ->]; simpl.
  all: repeat (rewrite occurs_sep by reflexivity; simpl).
  all: rewrite (Hnum _ Ha), (Hnum _ Ht).
  all: by rewrite !orb_false_r.
Qed.

(** C5. When the token information is absent, the text built for a boost
    that has its four fields is the reduced one: the title, the chain, the
    address and the two amounts, whatever else the boost holds.  It has no
    token-metrics section and no social-links section: those titles occur
    in it only if the chain or the address spell them. *)
Theorem reduced_message_without_metrics
    (w : world) (i : nat) (boost chain address amount total : json)
    (amount' total' : string) :
  getitem boost "chainId" = Ok chain ->
  getitem boost "tokenAddress" = Ok address ->
  getitem boost "amount" = Ok amount ->
  getitem boost "totalAmount" = Ok total ->
  format_number amount = Ok amount' ->
  format_number total = Ok total' ->
  fst (get_token_info (tokens_reply w i (tokens_url address))) = None ->
  let text := reduced_text (str chain) (str address) amount' total' in
  snd (build_message w i boost) = Ok text /\
  occurs "Token Metrics" text
  = occurs "Token Metrics" (str chain) || occurs "Token Metrics" (str address) /\
  occurs "Social Links" text
  = occurs "Social Links" (str chain) || occurs "Social Links" (str address).
Proof.
  intros Hc Ha Hm Ht Hm' Ht' Hnone text.
  pose proof (format_number_alphabet _ _ Hm') as Am.
  pose proof (format_number_alphabet _ _ Ht') as At.
  split; [|split].
  - unfold build_message. rewrite Hc, Ha.
    destruct (get_token_info (tokens_reply w i (tokens_url address)))
      as [ti log]. simpl in Hnone. subst ti. simpl.
    unfold fallback_message, bind. by rewrite Hc, Ha, Hm, Hm', Ht, Ht'.
  - apply reduced_text_sections; auto.
  - apply reduced_text_sections; auto.
Qed.

(** C7, as the code has it.  With the token information present, the
    text ends with a social-links block only when [info] is true: then, if
    neither [websites] nor [socials] holds an entry, the block is the
    sentence "No social links available"; when [info] is missing or empty
    the text has no such block. *)
Theorem social_links_block
    (w : world) (i : nat) (boost chain address : json) (ti : token_info)
    (message : string) :
  getitem boost "chainId" = Ok chain ->
  getitem boost "tokenAddress" = Ok address ->
  fst (get_token_info (tokens_reply w i (tokens_url address))) = Some ti ->
  main_message boost ti = Ok message ->
  (truthy (info ti) = false ->
   snd (build_message w i boost) = Ok message) /\
  (forall d,
     info ti = JDict d -> d <> nil ->
     no_entries "websites" d = true ->
     no_entries "socials" d = true ->
     snd (build_message w i boost) = Ok (message ++ no_links_block)).
Proof.
  intros Hc Ha Hsome Hm.
  assert (Hb : snd (build_message w i boost) = full_message boost ti).
  { unfold build_message. rewrite Hc, Ha.
    destruct (get_token_info (tokens_reply w i (tokens_url address)))
      as [ti' log]. simpl in Hsome. by subst ti'. }
  rewrite Hb. unfold full_message, bind. rewrite Hm. split.
  - by intros ->.
  - intros d Hd Hne Hw Hs. rewrite Hd.
    assert (Htrue : truthy (JDict d) = true) by by destruct d.
    rewrite Htrue.
    assert (Hnone : forall key each,
              no_entries key d = true ->
              links_under key each (JDict d) = Ok nil).
    { intros key each Hk. unfold links_under, no_entries in *. simpl.
      destruct (assoc key d) as [v|]; [|done]. simpl.
      apply negb_true_iff in Hk. by rewrite Hk. }
    unfold format_social_links, bind.
    by rewrite (Hnone _ _ Hw), (Hnone _ _ Hs).
Qed.

End Messages.

(** ** Numbers *)



(** * The properties on the samples *)

Section Samples.
Import Sample.
#[local] Existing Instance Reference.runtime.


(** C2 as stated fails: the feed times out and the timestamp moves. *)
Lemma failed_poll_advances_timestamp :
  failed (boosts_reply (offline 100)) = true /\
  last_check_time fresh = 0 /\
  last_check_time (fst (cycle (offline 100) fresh)) = 100.
Proof. repeat split. Qed.

Lemma failed_poll_cycle_witness :
  cycle (offline 100) fresh =
    ({| known_boosts := known_boosts fresh; last_check_time := 100 |},
     LogError "Error fetching boosts" :: Sleep CHECK_INTERVAL :: nil).
Proof. exact (proj1 (failed_poll_cycle (offline 100) fresh eq_refl)). Defined.

(** C3 as stated fails: the first boost has no amount, its text raises,
    and the second boost, new and well formed, gets no message. *)
Lemma exception_swallows_siblings :
  let w := feed (no_amounts :: eth :: nil) 100 in
  snd (build_message w 0 no_amounts) = Raise KeyError /\
  snd (build_message w 1 eth) = Ok (reduced_text "eth" "0x1" "$1.50K" "$2.50M") /\
  boost_id eth = Ok "eth_0x1" /\
  snd (cycle w fresh) =
    LogError "Error fetching token info"
    :: LogError "Error in monitoring loop" :: Sleep 60 :: nil /\
  notifications "eth_0x1" (snd (cycle w fresh)) = 0%nat.
Proof. repeat split; vm_compute; reflexivity. Qed.

Lemma failures_within_a_cycle_witness :
  let quiet := muted (solana :: eth :: nil) 100 in
  let broken := feed (no_amounts :: eth :: nil) 100 in
  is_ok (snd (send_notification quiet 0 solana)) = true /\
  snd (build_message quiet 0 solana) = fallback_message solana /\
  notifications "eth_0x1" (snd (cycle quiet fresh)) = 1%nat /\
  cycle broken fresh =
    ({| known_boosts := {["bsc_0x2"]} ∪ ∅; last_check_time := 0 |},
     LogError "Error fetching token info"
     :: LogError "Error in monitoring loop" :: Sleep 60 :: nil).
Proof.
  intros quiet broken.
  destruct (failures_within_a_cycle quiet fresh) as (H1 & H2 & H3 & _).
  destruct (failures_within_a_cycle broken fresh) as (_ & _ & _ & H4).
  split; [|split; [|split]].
  - rewrite H1. vm_compute. reflexivity.
  - apply (H2 0%nat solana (JStr "solana") (JStr "ABC")); reflexivity.
  - destruct H3 as (_ & H3).
    + intros j b Hj. destruct j as [|[|j]]; simpl in Hj.
      * injection Hj as <-. vm_compute. split; reflexivity.
      * injection Hj as <-. vm_compute. split; reflexivity.
      * discriminate Hj.
    + apply H3.
      * right. left.
      * apply not_elem_of_empty.
  - destruct (H4 nil no_amounts (eth :: nil) ∅ nil eq_refl eq_refl)
      as (_ & H5).
    apply (H5 "bsc_0x2" KeyError); [reflexivity|apply not_elem_of_empty|].
    vm_compute. reflexivity.
Defined.

Lemma poll_is_normalized_witness :
  as_list (fst (get_latest_boosts TransportError)) = nil /\
  as_list (fst (get_latest_boosts (Body (JList (solana :: eth :: nil)))))
  = solana :: eth :: nil /\
  as_list (fst (get_latest_boosts (Body solana))) = solana :: nil /\
  known_boosts (fst (cycle (feed (solana :: nil) 100) fresh))
  = fst (fst (for_boosts (feed (solana :: nil) 100) 0 (solana :: nil) ∅)).
Proof.
  split; [|split; [|split]].
  - apply (proj1 (poll_is_normalized TransportError)). reflexivity.
  - apply (proj1 (proj2 (poll_is_normalized _))). reflexivity.
  - apply (proj1 (proj2 (proj2 (poll_is_normalized _)))); [reflexivity|].
    intros l Hl. discriminate Hl.
  - exact (proj2 (proj2 (proj2 (poll_is_normalized
                                  (Body (JList (solana :: nil))))))
             (feed (solana :: nil) 100) fresh eq_refl).
Defined.

(** The scenario of the specification: solana, ABC, 100 and 500. *)
Lemma reduced_message_without_metrics_witness :
  let text := reduced_text "solana" "ABC" "$100.00" "$500.00" in
  snd (build_message (feed (solana :: nil) 100) 0 solana) = Ok text /\
  occurs "Token Metrics" text = false /\
  occurs "Social Links" text = false.
Proof.
  exact (reduced_message_without_metrics (feed (solana :: nil) 100) 0 solana
           (JStr "solana") (JStr "ABC") (JInt 100) (JInt 500)
           "$100.00" "$500.00"
           eq_refl eq_refl eq_refl eq_refl eq_refl eq_refl eq_refl).
Defined.


(** C7 as stated fails: with the token information present and no
    [info], the text has no social-links block at all; with two empty
    lists in [info], the placeholder is another sentence. *)
Lemma placeholder_not_rendered :
  fst (get_token_info (Body (pairs_body plain_pair))) = Some plain_info /\
  (exists text,
     snd (build_message (feed_with plain_pair (solana :: nil) 100) 0 solana)
     = Ok text /\
     occurs "Social Links" text = false /\
     occurs "links available" text = false) /\
  fst (get_token_info (Body (pairs_body linkless_pair))) = Some linkless_info /\
  (exists text,
     snd (build_message (feed_with linkless_pair (solana :: nil) 100) 0 solana)
     = Ok text /\
     occurs "No social links available" text = true /\
     occurs "no links available" text = false).
Proof.
  split; [reflexivity|]. split.
  { eexists. split; [vm_compute; reflexivity|].
    split; vm_compute; reflexivity. }
  split; [reflexivity|].
  eexists. split; [vm_compute; reflexivity|].
  split; vm_compute; reflexivity.
Qed.

Lemma social_links_block_witness :
  (exists message,
     main_message solana plain_info = Ok message /\
     snd (build_message (feed_with plain_pair (solana :: nil) 100) 0 solana)
     = Ok message) /\
  (exists message,
     main_message solana linkless_info = Ok message /\
     snd (build_message (feed_with linkless_pair (solana :: nil) 100) 0 solana)
     = Ok (message ++ no_links_block)).
Proof.
  split.
  - eexists. split; [vm_compute; reflexivity|].
    refine (proj1 (social_links_block
                     (feed_with plain_pair (solana :: nil) 100) 0 solana
                     (JStr "solana") (JStr "ABC") plain_info _
                     eq_refl eq_refl eq_refl _) eq_refl).
    vm_compute. reflexivity.
  - eexists. split; [vm_compute; reflexivity|].
    refine (proj2 (social_links_block
                     (feed_with linkless_pair (solana :: nil) 100) 0 solana
                     (JStr "solana") (JStr "ABC") linkless_info _
                     eq_refl eq_refl eq_refl _) empty_links
                  eq_refl _ eq_refl eq_refl).
    + vm_compute. reflexivity.
    + discriminate.
Defined.

Lemma get_token_info_first_pair_witness :
  fst (get_token_info TransportError) = None /\
  fst (get_token_info (Body (JList nil))) = None /\
  get_token_info (Body (JDict nil)) = (None, nil) /\
  get_token_info (Body (pairs_body plain_pair)) = (Some plain_info, nil).
Proof.
  destruct get_token_info_first_pair as (H1 & H2 & H3 & H4).
  split; [|split; [|split]].
  - apply H1. reflexivity.
  - apply (H2 (JList nil) AttributeError). reflexivity.
  - apply H3. left. reflexivity.
  - apply (H4 _ plain_pair nil
              (("name", JStr "Foo") :: ("symbol", JStr "FOO") :: nil)
              (JStr "Foo") (JStr "FOO"));
      reflexivity.
Defined.

Lemma boost_id_collision_witness :
  let boost2 := boost "a_b" "c" 1 1 in
  let w := feed (boost "a" "b_c" 1 1 :: boost2 :: nil) 100 in
  (SendMessage boost2 "" true ∉ snd (cycle w fresh)) /\
  known_boosts (fst (cycle w fresh)) = {["a_b_c"]}.
Proof.
  intros boost2 w.
  destruct boost_id_collision as (_ & _ & _ & H).
  destruct (H (fun _ _ => TransportError) (fun _ _ => true) 100 0)
    as (H1 & H2).
  split; [apply H1|apply H2].
Defined.

Lemma marked_seen_before_notifying_witness :
  let quiet := muted (solana :: eth :: nil) 100 in
  let broken := feed (no_amounts :: eth :: nil) 100 in
  "solana_ABC" ∈ known_boosts (fst (cycle quiet fresh)) /\
  SendMessage solana (reduced_text "solana" "ABC" "$100.00" "$500.00") false
    ∈ snd (cycle quiet fresh) /\
  notifications "solana_ABC"
    (snd (monitor_boosts (quiet :: quiet :: nil) (fst (cycle quiet fresh))))
  = 0%nat /\
  known_boosts (fst (cycle broken fresh)) = {["bsc_0x2"]} ∪ ∅ /\
  notifications "bsc_0x2"
    (snd (monitor_boosts (broken :: broken :: broken :: nil) fresh))
  = 0%nat.
Proof.
  intros quiet broken.
  destruct (marked_seen_before_notifying quiet fresh nil solana (eth :: nil)
              ∅ nil "solana_ABC" eq_refl eq_refl eq_refl)
    as (H1 & H2 & _ & H3); [apply not_elem_of_empty|].
  destruct (marked_seen_before_notifying broken fresh nil no_amounts
              (eth :: nil) ∅ nil "bsc_0x2" eq_refl eq_refl eq_refl)
    as (_ & _ & H4 & _); [apply not_elem_of_empty|].
  destruct (H3 (reduced_text "solana" "ABC" "$100.00" "$500.00"))
    as (H5 & _); [vm_compute; reflexivity|reflexivity|].
  destruct (H4 KeyError) as (H6 & H7); [vm_compute; reflexivity|].
  split; [apply H1|]. split; [apply H5|]. split; [apply H2|].
  split; [apply H6|apply H7].
Defined.

End Samples.

(** * More on the loop *)

Section LoopShape.
Context {RT : Runtime}.

Lemma sent_app l1 l2 : sent (l1 ++ l2) = (sent l1 ++ sent l2)%list.
Proof.
  induction l1 as [|e l1 IH]; [done|].
  destruct e; simpl; by rewrite ?IH.
Qed.

Lemma sleeps_app l1 l2 : sleeps (l1 ++ l2) = (sleeps l1 ++ sleeps l2)%list.
Proof.
  induction l1 as [|e l1 IH]; [done|].
  destruct e; simpl; by rewrite ?IH.
Qed.

Lemma logged_app what l1 l2 :
  logged what (l1 ++ l2) = logged what l1 || logged what l2.
Proof. apply existsb_app. Qed.

(** What [send_notification] leaves, in full. *)
Lemma send_notification_log w i boost :
  fst (send_notification w i boost) =
    (fst (build_message w i boost) ++
     match snd (build_message w i boost) with
     | Raise _ => nil
     | Ok text =>
         if delivers w i text then SendMessage boost text true :: nil
         else SendMessage boost text false
              :: LogError "Error sending notification" :: nil
     end)%list.
Proof.
  unfold send_notification.
  destruct (build_message w i boost) as [log [text|e]]; simpl.
  - by destruct (delivers w i text).
  - by rewrite app_nil_r.
Qed.

Lemma build_message_quiet w i boost :
  sent (fst (build_message w i boost)) = nil /\
  sleeps (fst (build_message w i boost)) = nil /\
  logged "Error in monitoring loop" (fst (build_message w i boost)) = false.
Proof.
  unfold build_message.
  destruct (getitem boost "chainId") as [chain|]; [|done].
  destruct (getitem boost "tokenAddress") as [addr|]; [|done].
  unfold get_token_info.
  destruct (tokens_reply w i (tokens_url addr)) as [| | |data]; try done.
  by destruct (first_pair_info data).
Qed.

Lemma send_notification_sent w i boost :
  sent (fst (send_notification w i boost)) =
    (if is_ok (snd (send_notification w i boost)) then boost :: nil else nil) /\
  sleeps (fst (send_notification w i boost)) = nil /\
  logged "Error in monitoring loop" (fst (send_notification w i boost)) = false.
Proof.
  rewrite send_notification_log, sent_app, sleeps_app, logged_app.
  destruct (build_message_quiet w i boost) as (-> & -> & ->).
  unfold send_notification.
  destruct (build_message w i boost) as [log [text|e]]; simpl; [|done].
  by destruct (delivers w i text).
Qed.

(** The messages of the loop are for boosts of the list, in the order of
    the list; the loop never waits and never logs for the cycle. *)
Lemma for_boosts_sent w boosts :
  forall i known known' log r,
    for_boosts w i boosts known = (known', log, r) ->
    sublist (sent log) boosts /\
    sleeps log = nil /\
    logged "Error in monitoring loop" log = false.
Proof.
  induction boosts as [|boost rest IH]; intros i known known' log r.
  - simpl. by intros [= <- <- <-].
  - rewrite for_boosts_cons.
    destruct (boost_id boost) as [id|e] eqn:Hid.
    2:{ intros [= <- <- <-]. split_and!; [apply sublist_nil_l|done|done]. }
    case_bool_decide as Hin.
    { intros H. destruct (IH _ _ _ _ _ H) as (H1 & H2 & H3).
      split_and!; [by apply sublist_cons|done|done]. }
    destruct (send_notification w i boost) as [l1 r1] eqn:Es.
    destruct (send_notification_sent w i boost) as (Hs1 & Hs2 & Hs3).
    rewrite Es in Hs1, Hs2, Hs3. simpl in Hs1, Hs2, Hs3.
    destruct r1 as [[]|e].
    2:{ intros [= <- <- <-]. rewrite Hs1.
        split_and!; [apply sublist_nil_l|done|done]. }
    destruct (for_boosts w (S i) rest ({[id]} ∪ known))
      as [[k2 l2] r2] eqn:E.
    destruct (IH _ _ _ _ _ E) as (H1 & H2 & H3).
    intros [= <- <- <-].
    rewrite sent_app, sleeps_app, logged_app, Hs1, Hs2, Hs3, H2, H3.
    split_and!; [|done|done]. simpl. by apply sublist_skip.
Qed.

(** Each message comes with one new identifier. *)
Lemma for_boosts_sent_ids w boosts :
  forall i known known' log r,
    for_boosts w i boosts known = (known', log, r) ->
    NoDup (ids (sent log)) /\
    length (ids (sent log)) = length (sent log) /\
    (forall id, id ∈ ids (sent log) -> (id ∉ known) /\ id ∈ known').
Proof.
  induction boosts as [|boost rest IH]; intros i known known' log r.
  - simpl. intros [= <- <- <-]. simpl.
    split_and!; [constructor|done|]. intros id H. by apply elem_of_nil in H.
  - rewrite for_boosts_cons.
    destruct (boost_id boost) as [id|e] eqn:Hid.
    2:{ intros [= <- <- <-]. simpl.
        split_and!; [constructor|done|].
        intros id H. by apply elem_of_nil in H. }
    case_bool_decide as Hin; [by apply IH|].
    destruct (send_notification w i boost) as [l1 r1] eqn:Es.
    destruct (send_notification_sent w i boost) as (Hs1 & _).
    rewrite Es in Hs1. simpl in Hs1.
    destruct r1 as [[]|e].
    2:{ intros [= <- <- <-]. rewrite Hs1. simpl.
        split_and!; [constructor|done|].
        intros id' H. by apply elem_of_nil in H. }
    destruct (for_boosts w (S i) rest ({[id]} ∪ known))
      as [[k2 l2] r2] eqn:E.
    destruct (IH _ _ _ _ _ E) as (H1 & H2 & H3).
    pose proof (for_boosts_known _ _ _ _ _ _ _ E) as (Hmono & _).
    intros [= <- <- <-]. rewrite sent_app, Hs1. simpl. rewrite Hid. simpl.
    split_and!.
    + constructor; [|done]. intros Hn. apply H3 in Hn. set_solver.
    + by rewrite H2.
    + intros id' [->|H]%elem_of_cons; [set_solver|].
      apply H3 in H. set_solver.
Qed.

(** The set of known identifiers grows by one for each message, and by
    at most one more, for the boost at which the loop was left. *)
Lemma for_boosts_size w boosts :
  forall i known known' log r,
    for_boosts w i boosts known = (known', log, r) ->
    (size known + length (sent log) <= size known')%nat /\
    (size known' <= size known + length (sent log) + 1)%nat /\
    (r = Ok tt -> size known' = (size known + length (sent log))%nat).
Proof.
  induction boosts as [|boost rest IH]; intros i known known' log r.
  - simpl. intros [= <- <- <-]. simpl. split_and!; [lia|lia|]. intros _. lia.
  - rewrite for_boosts_cons.
    destruct (boost_id boost) as [id|e] eqn:Hid.
    2:{ intros [= <- <- <-]. simpl. split_and!; [lia|lia|done]. }
    case_bool_decide as Hin; [by apply IH|].
    destruct (send_notification w i boost) as [l1 r1] eqn:Es.
    destruct (send_notification_sent w i boost) as (Hs1 & _).
    rewrite Es in Hs1. simpl in Hs1.
    assert (Hsize : size ({[id]} ∪ known) = S (size known)).
    { rewrite size_union by set_solver. by rewrite size_singleton. }
    destruct r1 as [[]|e].
    2:{ intros [= <- <- <-]. rewrite Hs1, Hsize. simpl.
        split_and!; [lia|lia|done]. }
    destruct (for_boosts w (S i) rest ({[id]} ∪ known))
      as [[k2 l2] r2] eqn:E.
    destruct (IH _ _ _ _ _ E) as (H1 & H2 & H3).
    intros [= <- <- <-]. rewrite sent_app, Hs1, length_app. simpl.
    split_and!; [lia|lia|]. intros Hr. rewrite (H3 Hr). lia.
Qed.

(** A list of boosts that are all known is passed over. *)
Lemma for_boosts_all_seen w boosts :
  forall i known,
    (forall b, b ∈ boosts -> exists id, boost_id b = Ok id /\ id ∈ known) ->
    for_boosts w i boosts known = (known, nil, Ok tt).
Proof.
  induction boosts as [|boost rest IH]; intros i known Hall; [done|].
  destruct (Hall boost) as (id & Hid & Hin); [left|].
  rewrite (for_boosts_seen _ _ _ _ _ _ Hid Hin). apply IH.
  intros b Hb. apply Hall. by right.
Qed.

Lemma cycle_sent w st :
  sent (snd (cycle w st)) = sent (snd (fst (run_loop w st))) /\
  sleeps (snd (cycle w st)) = CHECK_INTERVAL :: nil /\
  logged "Error in monitoring loop" (snd (cycle w st))
  = negb (completed w st).
Proof.
  rewrite cycle_run_loop. unfold completed.
  destruct (for_boosts_sent _ _ _ _ _ _ _ (run_loop_eq w st))
    as (_ & Hsl & Hlg).
  destruct (run_loop w st) as [[known log] r]. simpl in *.
  rewrite !sent_app, !sleeps_app, !logged_app, Hsl, Hlg.
  assert (H0 : sent (snd (get_latest_boosts (boosts_reply w))) = nil /\
               sleeps (snd (get_latest_boosts (boosts_reply w))) = nil /\
               logged "Error in monitoring loop"
                 (snd (get_latest_boosts (boosts_reply w))) = false).
  { by destruct (boosts_reply w). }
  destruct H0 as (-> & -> & ->). simpl.
  destruct r as [[]|e]; simpl; by rewrite ?app_nil_r.
Qed.

(** X1. The messages of a cycle are for boosts of the polled list, in
    the order of that list; each is for a different identifier, which was
    not known before the cycle. *)
Theorem messages_follow_the_feed (w : world) (st : bot) :
  sublist (sent (snd (cycle w st))) (polled w) /\
  NoDup (ids (sent (snd (cycle w st)))) /\
  length (ids (sent (snd (cycle w st)))) = length (sent (snd (cycle w st))) /\
  (forall id, id ∈ ids (sent (snd (cycle w st))) -> id ∉ known_boosts st).
Proof.
  destruct (cycle_sent w st) as (-> & _).
  destruct (for_boosts_sent _ _ _ _ _ _ _ (run_loop_eq w st)) as (H1 & _).
  destruct (for_boosts_sent_ids _ _ _ _ _ _ _ (run_loop_eq w st))
    as (H2 & H3 & H4).
  split_and!; [done|done|done|]. intros id Hid. by destruct (H4 _ Hid).
Qed.

(** X2. Every cycle waits once, at its end, for [CHECK_INTERVAL]
    seconds, whether it failed or not: a run of n cycles waits n times 60
    seconds. *)
Theorem one_wait_per_cycle (ws : list world) (w : world) (st : bot) :
  sleeps (snd (monitor_boosts ws st)) = replicate (length ws) CHECK_INTERVAL /\
  last (snd (cycle w st)) = Some (Sleep CHECK_INTERVAL).
Proof.
  split.
  - clear w. revert st. induction ws as [|w ws IH]; intros st; [done|].
    rewrite monitor_boosts_cons. simpl. rewrite sleeps_app, IH.
    by destruct (cycle_sent w st) as (_ & -> & _).
  - rewrite cycle_run_loop.
    destruct (run_loop w st) as [[known log] r]. simpl.
    rewrite !app_assoc.
    destruct r as [[]|e]; simpl.
    + by rewrite last_snoc.
    + change (LogError "Error in monitoring loop" :: Sleep CHECK_INTERVAL :: nil)
        with ((LogError "Error in monitoring loop" :: nil)
              ++ Sleep CHECK_INTERVAL :: nil)%list.
      by rewrite app_assoc, last_snoc.
Qed.

(** X3. A cycle logs the error of the loop exactly when an exception
    left the loop over the boosts, and that is exactly when the time of the
    last check stays as it was. *)
Theorem loop_error_and_timestamp (w : world) (st : bot) :
  logged "Error in monitoring loop" (snd (cycle w st))
  = negb (completed w st) /\
  last_check_time (fst (cycle w st))
  = (if completed w st then now w else last_check_time st).
Proof.
  split; [by destruct (cycle_sent w st) as (_ & _ & ->)|].
  rewrite cycle_run_loop. unfold completed.
  by destruct (run_loop w st) as [[known log] r].
Qed.

Lemma size_list_to_set (l : list string) :
  (size (list_to_set l : gset string) <= length l)%nat.
Proof.
  induction l as [|x l IH].
  - by rewrite list_to_set_nil, size_empty.
  - rewrite list_to_set_cons, size_union_alt, size_singleton.
    assert (H : list_to_set l ∖ {[x]} ⊆ (list_to_set l : gset string))
      by set_solver.
    apply subseteq_size in H. cbn [length]. lia.
Qed.

Lemma ids_length boosts : (length (ids boosts) <= length boosts)%nat.
Proof.
  induction boosts as [|b l IH]; [done|]. simpl.
  destruct (boost_id b); simpl; lia.
Qed.

(** X4. A cycle only adds identifiers of the polled boosts to
    [known_boosts], at most one per boost; when the loop runs to its end
    it has added all of them. *)
Theorem known_after_a_cycle (w : world) (st : bot) :
  known_boosts (fst (cycle w st))
    ⊆ known_boosts st ∪ list_to_set (ids (polled w)) /\
  (size (known_boosts (fst (cycle w st)))
   <= size (known_boosts st) + length (polled w))%nat /\
  (completed w st = true ->
   known_boosts (fst (cycle w st))
   = known_boosts st ∪ list_to_set (ids (polled w))).
Proof.
  rewrite cycle_known.
  destruct (for_boosts_known _ _ _ _ _ _ _ (run_loop_eq w st))
    as (_ & Hsub & Hall).
  split_and!; [done| |].
  - apply subseteq_size in Hsub. rewrite size_union_alt in Hsub.
    assert (H : list_to_set (ids (polled w)) ∖ known_boosts st
                ⊆ (list_to_set (ids (polled w)) : gset string))
      by set_solver.
    apply subseteq_size in H.
    pose proof (size_list_to_set (ids (polled w))).
    pose proof (ids_length (polled w)).
    lia.
  - intros Hc. apply Hall. by apply is_ok_unit.
Qed.

(** X5. Over any run, [known_boosts] grows by one identifier for each
    message sent, and by at most one more per cycle (the boost at which a
    cycle was left): the number [cmd_status] reports lies between the
    messages sent since construction and that plus the cycles run. *)
Theorem known_count_and_messages
    (strftime : Z -> string) (ws : list world) (st : bot) (t : Z) :
  let final := fst (monitor_boosts ws st) in
  let messages := length (sent (snd (monitor_boosts ws st))) in
  (size (known_boosts st) + messages <= size (known_boosts final))%nat /\
  (size (known_boosts final)
   <= size (known_boosts st) + messages + length ws)%nat /\
  (known_boosts st = known_boosts (init t) ->
   exists n,
     (messages <= n <= messages + length ws)%nat /\
     status_message strftime final =
       "📊 Monitor Status:" ++ nl ++
       "Last check: " ++ strftime (last_check_time final) ++ nl ++
       "Known boosts: " ++ dec (Z.of_nat n) ++ nl ++
       "Check interval: 60 seconds").
Proof.
  intros final messages.
  assert (H : (size (known_boosts st) + messages
               <= size (known_boosts final))%nat /\
              (size (known_boosts final)
               <= size (known_boosts st) + messages + length ws)%nat).
  { unfold final, messages. clear. revert st.
    induction ws as [|w ws IH]; intros st; [simpl; lia|].
    rewrite monitor_boosts_cons. simpl.
    rewrite sent_app, length_app.
    destruct (cycle_sent w st) as (-> & _). specialize (IH (fst (cycle w st))).
    rewrite cycle_known in IH.
    destruct (for_boosts_size _ _ _ _ _ _ _ (run_loop_eq w st))
      as (H1 & H2 & _).
    lia. }
  destruct H as (H1 & H2). split_and!; [done|done|].
  intros Hinit. exists (size (known_boosts final)). split; [|done].
  rewrite Hinit in H1, H2. cbn [init known_boosts] in H1, H2.
  rewrite size_empty in H1, H2. lia.
Qed.

(** X6. A cycle whose polled boosts all have known identifiers sends
    nothing and changes nothing but the time of the last check; the other
    fields of those boosts are not even read. *)
Theorem cycle_with_nothing_new (w : world) (st : bot) (data : json) :
  boosts_reply w = Body data ->
  (forall b, b ∈ as_list data ->
     exists id, boost_id b = Ok id /\ id ∈ known_boosts st) ->
  cycle w st =
    ({| known_boosts := known_boosts st; last_check_time := now w |},
     Sleep CHECK_INTERVAL :: nil).
Proof.
  intros Hr Hall. unfold cycle. rewrite Hr. simpl.
  by rewrite (for_boosts_all_seen _ _ _ _ Hall).
Qed.

(** X7. When [send_notification] raises for a boost, the cycle is left
    there; the next cycle on the same response passes over that boost and
    the ones before it without a message, and runs the loop on the boosts
    after it. *)
Theorem next_cycle_passes_the_offender
    (w w2 : world) (st : bot) (pre : list json) (boost : json)
    (post : list json) (known1 : gset string) (log1 : list event)
    (id : string) (e : exn) :
  polled w = (pre ++ boost :: post)%list ->
  for_boosts w 0 pre (known_boosts st) = (known1, log1, Ok tt) ->
  boost_id boost = Ok id ->
  id ∉ known1 ->
  snd (send_notification w (length pre) boost) = Raise e ->
  boosts_reply w2 = boosts_reply w ->
  sent (snd (cycle w st)) = sent log1 /\
  run_loop w2 (fst (cycle w st))
  = for_boosts w2 (S (length pre)) post ({[id]} ∪ known1).
Proof.
  intros Hp Hpre Hid Hnew He Hsame.
  pose proof (run_loop_at _ _ _ _ _ _ _ _ Hp Hpre Hid Hnew) as Hloop.
  destruct (send_notification_sent w (length pre) boost) as (Hs & _).
  destruct (send_notification w (length pre) boost) as [lb rb].
  simpl in He. subst rb. simpl in Hs.
  split.
  { destruct (cycle_sent w st) as (-> & _). rewrite Hloop. simpl.
    by rewrite sent_app, Hs, app_nil_r. }
  unfold run_loop at 1. rewrite cycle_known, Hloop. simpl.
  rewrite (polled_same_reply _ _ Hsame), Hp.
  destruct (for_boosts_known _ _ _ _ _ _ _ Hpre) as (_ & _ & Hall).
  specialize (Hall eq_refl).
  rewrite for_boosts_app.
  rewrite (for_boosts_all_seen w2 pre 0 ({[id]} ∪ known1)).
  - cbv beta iota. rewrite Nat.add_0_l.
    rewrite (for_boosts_seen _ _ _ _ _ id Hid) by set_solver.
    by destruct (for_boosts w2 (S (length pre)) post ({[id]} ∪ known1))
      as [[k l] r].
  - intros b Hb.
    destruct (for_boosts_ok_ids _ _ _ _ _ _ _ Hpre Hb) as (id' & H1 & H2).
    exists id'. split; [done|]. rewrite Hall. set_solver.
Qed.

(** X8. A response that is a single object without a chain or an
    address (an error object, a string, null) is taken for one boost: its
    identifier raises, nothing is sent or remembered, the error of the loop
    is logged and the time of the last check stays. *)
Theorem single_object_that_is_no_boost
    (w : world) (st : bot) (data : json) :
  boosts_reply w = Body data ->
  (forall l, data <> JList l) ->
  is_ok (boost_id data) = false ->
  cycle w st =
    (st, LogError "Error in monitoring loop" :: Sleep CHECK_INTERVAL :: nil).
Proof.
  intros Hr Hnl Hid. unfold cycle. rewrite Hr. simpl.
  assert (Hl : as_list data = data :: nil).
  { destruct data; try done. by destruct (Hnl l). }
  rewrite Hl, for_boosts_cons.
  destruct (boost_id data) as [id|e]; [done|]. by destruct st.
Qed.

End LoopShape.

(** * More on the numbers *)

Section NumberShape.

Lemma digits2_size p : digits2_pos p = Pos.size p.
Proof. induction p; simpl; congruence. Qed.

Lemma digits2_shifted m k :
  digits2_pos (Pos.iter xO m k) = (digits2_pos m + k)%positive.
Proof.
  induction k using Pos.peano_ind.
  - simpl. lia.
  - rewrite Pos.iter_succ. simpl. rewrite IHk. lia.
Qed.

Lemma shifted_value m k : Zpos (Pos.iter xO m k) = Zpos m * 2 ^ Zpos k.
Proof.
  induction k using Pos.peano_ind.
  - simpl. lia.
  - rewrite Pos.iter_succ, Pos2Z.inj_xO, IHk, Pos2Z.inj_succ.
    rewrite Z.pow_succ_r by lia. lia.
Qed.

Lemma size_below_53 m : Zpos m < 2 ^ 53 -> Zpos (Pos.size m) <= 53.
Proof.
  intros H. pose proof (Pos.size_le m) as Hs.
  destruct (Z_le_gt_dec (Zpos (Pos.size m)) 53) as [|Hgt]; [done|].
  exfalso.
  assert (2 ^ 53 <= 2 ^ (Zpos (Pos.size m) - 1))
    by (apply Z.pow_le_mono_r; lia).
  assert (Zpos (2 ^ Pos.size m) = 2 * 2 ^ (Zpos (Pos.size m) - 1)).
  { rewrite Pos2Z.inj_pow.
    replace (Zpos (Pos.size m)) with (Z.succ (Zpos (Pos.size m) - 1)) at 1
      by lia.
    by rewrite Z.pow_succ_r by lia. }
  assert ((2 ^ Pos.size m <= m~0)%positive) by exact Hs.
  lia.
Qed.

(** An integer below 2^53 is a double: rounding it changes nothing. *)
Lemma binary_round_small s m :
  Zpos m < 2 ^ 53 ->
  exists m' e,
    binary_round prec emax s m 0 = S754_finite s m' e /\
    e <= 0 /\ Zpos m' = Zpos m * 2 ^ (- e).
Proof.
  intros Hm. pose proof (size_below_53 m Hm) as Hd.
  unfold binary_round. rewrite digits2_size.
  set (d := Pos.size m) in *.
  assert (Hf : fexp prec emax (Zpos d + 0) = Zpos d - 53).
  { unfold fexp, emin, prec, emax. lia. }
  rewrite Hf. unfold shl_align.
  destruct (Zpos d - 53 - 0) as [|k|k] eqn:Ek; try lia.
  - exists m, 0. split; [|split; [lia|simpl; lia]].
    unfold binary_round_aux, shr_fexp. simpl Zdigits2.
    rewrite digits2_size. fold d.
    replace (fexp prec emax (Zpos d + 0) - 0) with 0 by (rewrite Hf; lia).
    simpl. rewrite digits2_size. fold d.
    replace (fexp prec emax (Zpos d + 0) - 0) with 0 by (rewrite Hf; lia).
    reflexivity.
  - exists (Pos.iter xO m k), (Zpos d - 53).
    assert (Hdk : Zpos (digits2_pos (Pos.iter xO m k)) = 53).
    { rewrite digits2_shifted, digits2_size. fold d. lia. }
    split; [|split; [lia|]].
    + unfold binary_round_aux, shr_fexp. simpl Zdigits2. rewrite Hdk.
      assert (Hf2 : fexp prec emax (53 + (Zpos d - 53)) - (Zpos d - 53) = 0).
      { unfold fexp, emin, prec, emax. lia. }
      rewrite Hf2. simpl. rewrite Hdk, Hf2. simpl.
      destruct (Zpos d - 53 <=? emax - prec) eqn:E; [reflexivity|].
      unfold emax, prec in E. lia.
    + rewrite shifted_value. f_equal. f_equal. lia.
Qed.

(** With two decimals, a double that is an integer is that integer
    followed by two zeros. *)
Lemma format_f_integer s m m' e :
  e <= 0 -> Zpos m' = Zpos m * 2 ^ (- e) ->
  format_f 2 (S754_finite s m' e) = sign s ++ dec (Zpos m) ++ ".00".
Proof.
  intros He Hm. unfold format_f. f_equal.
  assert (Hs : scaled m' e 2 = Zpos m * 100).
  { unfold scaled. change (10 ^ Z.of_nat 2) with 100.
    destruct (0 <=? e) eqn:E.
    - replace e with 0 in * by lia. simpl in Hm. lia.
    - assert (Hp : 0 < 2 ^ (- e)) by (apply Z.pow_pos_nonneg; lia).
      rewrite Hm.
      replace (Zpos m * 2 ^ (- e) * 100) with (Zpos m * 100 * 2 ^ (- e))
        by lia.
      rewrite Z.mod_mul, Z.div_mul by lia.
      change (2 * 0) with 0.
      destruct (0 ?= 2 ^ (- e)) eqn:C; try done.
      + apply Z.compare_eq in C. lia.
      + apply Z.compare_gt_iff in C. lia. }
  rewrite Hs. unfold fixed. change (10 ^ Z.of_nat 2) with 100.
  by rewrite Z.div_mul, Z.mod_mul by lia.
Qed.

(** X9. An integer below a thousand, negative ones included, is written
    out in full with two zero decimals: negative amounts are never
    abbreviated, whatever their size. *)
Theorem format_number_written_out (z : Z) :
  - 2 ^ 53 < z < 1000 ->
  format_number (JInt z) = Ok ("$" ++ signed z ++ ".00").
Proof.
  intros Hz. unfold format_number, bind.
  cbn [ge_lit]. 
  rewrite (proj2 (Z.leb_gt _ _)) by lia.
  rewrite (proj2 (Z.leb_gt _ _)) by lia.
  rewrite (proj2 (Z.leb_gt _ _)) by lia.
  cbn [format_fixed]. unfold bind, float_of_int, signed.
  destruct z as [|m|m].
  - reflexivity.
  - cbn [binary_normalize].
    destruct (binary_round_small false m) as (m' & e & -> & He & Hm); [lia|].
    by rewrite (format_f_integer false m m' e He Hm).
  - cbn [binary_normalize].
    destruct (binary_round_small true m) as (m' & e & -> & He & Hm); [lia|].
    by rewrite (format_f_integer true m m' e He Hm).
Qed.

(** X10. [format_number] raises [TypeError] on anything that is not a
    number, never raises on a float (infinities and NaN included), and
    on an integer can only raise [OverflowError]. *)
Theorem format_number_outcomes :
  (forall v, is_number v = false -> format_number v = Raise TypeError) /\
  (forall f, is_ok (format_number (JFloat f)) = true) /\
  (forall z e, format_number (JInt z) = Raise e -> e = OverflowError).
Proof.
  split_and!.
  - intros v Hv. by destruct v.
  - intros f. unfold format_number, bind. cbn [ge_lit truediv_lit].
    repeat (destruct (SFleb _ f); [done|]). done.
  - intros z e. unfold format_number, bind. cbn [ge_lit truediv_lit].
    assert (Hd : forall k r, int_truediv z k = Raise r -> r = OverflowError).
    { intros k r. unfold int_truediv.
      destruct z; [done| |];
        by destruct (SFdiv _ _ _ _); try done; intros [= <-]. }
    repeat (destruct (Zpos _ <=? z);
            [destruct (int_truediv z _) as [q|r] eqn:E;
             [done|intros [= <-]; by apply (Hd _ _ E)]|]).
    cbn [format_fixed]. unfold bind, float_of_int.
    by destruct (binary_normalize _ _ _ _ _); try done; intros [= <-].
Qed.

(** X11. What [format_number] writes starts with a dollar sign and is
    made of digits, a point, a minus sign, the suffixes and the letters of
    nan and inf: it holds none of the characters Markdown gives a
    meaning to. *)
Theorem format_number_text (num : json) (text : string) :
  format_number num = Ok text ->
  starts_with "$" text = true /\
  all_in number_alphabet text = true /\
  has "*" text = false /\ has "_" text = false /\
  has "`" text = false /\ has "[" text = false.
Proof.
  intros H. pose proof (format_number_alphabet _ _ H) as Ha.
  split_and!; [|done|..]; try by apply (all_in_has number_alphabet).
  revert H. unfold format_number, bind.
  destruct (ge_lit num 1000000000) as [[]|]; [| |done].
  { destruct (truediv_lit num 1000000000) as [q|]; [|done]. by intros [= <-]. }
  destruct (ge_lit num 1000000) as [[]|]; [| |done].
  { destruct (truediv_lit num 1000000) as [q|]; [|done]. by intros [= <-]. }
  destruct (ge_lit num 1000) as [[]|]; [| |done].
  { destruct (truediv_lit num 1000) as [q|]; [|done]. by intros [= <-]. }
  destruct (format_fixed 2 num) as [t|]; [|done]. by intros [= <-].
Qed.

End NumberShape.

(** * More on the token information and the links *)

Section TokenShape.
Context {RT : Runtime}.

#[local] Arguments String.append !s1 s2 : simpl nomatch.

Lemma first_pair_info_usable d p rest :
  assoc "pairs" d = Some (JList (p :: rest)) ->
  is_ok (first_pair_info (JDict d)) = usable_pair p.
Proof.
  intros Hp. unfold first_pair_info, usable_pair, liquidity_is_dict.
  simpl. rewrite Hp. simpl.
  destruct p as [| | | | |l|fields]; try done. simpl.
  destruct (assoc "baseToken" fields) as [[| | | | |l|base]|]; try done.
  simpl.
  destruct (assoc "name" base); [|done]. simpl.
  destruct (assoc "symbol" base); [|done]. simpl.
  by destruct (assoc "liquidity" fields) as [[]|].
Qed.

(** X12. When the first pair of the response cannot be read (it is not
    an object, its base token lacks a name or a symbol, its liquidity is
    not an object), [get_token_info] logs the error and returns [None]: it
    does not go on to the pairs that follow. *)
Theorem unreadable_first_pair (d : list (string * json)) (p : json)
    (rest : list json) :
  assoc "pairs" d = Some (JList (p :: rest)) ->
  usable_pair p = false ->
  get_token_info (Body (JDict d))
  = (None, LogError "Error fetching token info" :: nil).
Proof.
  intros Hp Hu. pose proof (first_pair_info_usable d p rest Hp) as H.
  rewrite Hu in H. unfold get_token_info.
  by destruct (first_pair_info (JDict d)).
Qed.

(** X13. The defaults of [get_token_info] stand in for missing fields
    only.  A first pair whose [marketCap] is present but is not a number
    (null, a string) gives token information all the same, and building
    the text then raises [TypeError]: no message is sent for that boost. *)
Theorem metric_that_is_no_number
    (w : world) (i : nat) (boost chain address cap : json)
    (d fields : list (string * json)) (rest : list json) :
  getitem boost "chainId" = Ok chain ->
  getitem boost "tokenAddress" = Ok address ->
  tokens_reply w i (tokens_url address) = Body (JDict d) ->
  assoc "pairs" d = Some (JList (JDict fields :: rest)) ->
  usable_pair (JDict fields) = true ->
  assoc "marketCap" fields = Some cap ->
  is_number cap = false ->
  build_message w i boost = (nil, Raise TypeError) /\
  send_notification w i boost = (nil, Raise TypeError).
Proof.
  intros Hc Ha Hr Hp Hu Hm Hn.
  assert (Hb : build_message w i boost = (nil, Raise TypeError)).
  { unfold build_message. rewrite Hc, Ha, Hr.
    unfold get_token_info, first_pair_info. simpl. rewrite Hp. simpl.
    unfold usable_pair, liquidity_is_dict in Hu.
    destruct (assoc "baseToken" fields) as [[| | | | |l|base]|]; try done.
    simpl.
    destruct (assoc "name" base) as [nm|]; [|done].
    destruct (assoc "symbol" base) as [sy|]; [|done]. simpl.
    rewrite Hm.
    destruct (assoc "liquidity" fields) as [[| | | | |l|lq]|]; try done;
      simpl; unfold full_message, main_message; simpl; rewrite Hc, Ha;
      simpl; by destruct cap. }
  split; [done|]. unfold send_notification. by rewrite Hb.
Qed.

(** How the two loops of [format_social_links] end. *)
Lemma website_links_ok websites :
  is_ok (website_links websites) = forallb is_dict websites.
Proof.
  induction websites as [|v rest IH]; [done|].
  destruct v as [| | | | |l|d]; try done. simpl.
  destruct (assoc "url" d) as [u|]; simpl; [|done].
  destruct (truthy u); [|done].
  by destruct (website_links rest).
Qed.

Lemma social_links_ok socials :
  is_ok (social_links socials) = forallb social_ok socials.
Proof.
  induction socials as [|v rest IH]; [done|].
  destruct v as [| | | | |l|d]; try done. simpl.
  unfold platform_of. simpl.
  destruct (assoc "platform" d) as [[| | | |p| |]|]; try done; simpl.
  - destruct (negb (lower p =? "")%string && _); [|done].
    by destruct (social_links rest).
  - destruct (negb (lower "" =? "")%string && _); [|done].
    by destruct (social_links rest).
Qed.

Lemma website_links_none websites :
  forallb no_url websites = true -> website_links websites = Ok nil.
Proof.
  induction websites as [|v rest IH]; [done|]. simpl.
  intros [Hv Hrest]%andb_prop.
  destruct v as [| | | | |l|d]; try done. simpl in *.
  unfold no_entries in Hv.
  destruct (assoc "url" d) as [u|]; simpl.
  - apply negb_true_iff in Hv. rewrite Hv. by apply IH.
  - by apply IH.
Qed.

Lemma social_links_none socials :
  forallb no_handle socials = true -> social_links socials = Ok nil.
Proof.
  induction socials as [|v rest IH]; [done|]. simpl.
  intros [Hv Hrest]%andb_prop.
  destruct v as [| | | | |l|d]; try done. simpl in *.
  unfold platform_of, no_entries in *. simpl.
  assert (Hh : truthy match assoc "handle" d with
                      | Some x => x
                      | None => JStr ""
                      end = false).
  { destruct (assoc "platform" d) as [[]|]; try done;
      destruct (assoc "handle" d); simpl; try done;
      by apply negb_true_iff in Hv. }
  destruct (assoc "platform" d) as [[| | | |p| |]|]; try done; simpl.
  - rewrite Hh, andb_false_r. by apply IH.
  - rewrite Hh, andb_false_r. by apply IH.
Qed.

(** X14. For an [info] whose websites and socials are lists,
    [format_social_links] returns a text exactly when every website is an
    object and every social is an object whose platform, if present, is a
    string; otherwise it raises and no message is sent. *)
Theorem social_links_well_formed
    (d : list (string * json)) (websites socials : list json) :
  assoc "websites" d = Some (JList websites) ->
  assoc "socials" d = Some (JList socials) ->
  is_ok (format_social_links (JDict d))
  = forallb is_dict websites && forallb social_ok socials.
Proof.
  intros Hw Hs. unfold format_social_links, links_under, bind. simpl.
  rewrite Hw, Hs. simpl.
  rewrite <- website_links_ok, <- social_links_ok.
  destruct websites as [|w ws]; destruct socials as [|x xs]; simpl Py.truthy;
    cbv iota.
  - done.
  - by destruct (social_links (x :: xs)).
  - destruct (website_links (w :: ws)); [|done]. done.
  - destruct (website_links (w :: ws)); [|done].
    by destruct (social_links (x :: xs)).
Qed.

(** X15. Entries that give no link are passed over in silence: when
    every website is an object without a true [url], and every social is
    an object whose [platform] is missing or a string and which has no
    true [handle], the text is the placeholder, however many entries there
    are. *)
Theorem entries_without_links
    (d : list (string * json)) (websites socials : list json) :
  assoc "websites" d = Some (JList websites) ->
  assoc "socials" d = Some (JList socials) ->
  forallb no_url websites = true ->
  forallb no_handle socials = true ->
  format_social_links (JDict d) = Ok "No social links available".
Proof.
  intros Hw Hs Hnw Hns. unfold format_social_links, links_under, bind. simpl.
  rewrite Hw, Hs. simpl.
  rewrite (website_links_none _ Hnw), (social_links_none _ Hns).
  by destruct websites, socials.
Qed.

Lemma underscore_split c1 : forall c2 a1 a2,
  has "_" c1 = false -> has "_" c2 = false ->
  c1 ++ "_" ++ a1 = c2 ++ "_" ++ a2 -> c1 = c2 /\ a1 = a2.
Proof.
  induction c1 as [|x c1 IH]; intros c2 a1 a2 H1 H2 Heq.
  - destruct c2 as [|y c2]; cbn in Heq.
    + by injection Heq as ->.
    + injection Heq as Hy _. subst y. by cbn in H2.
  - destruct c2 as [|y c2]; cbn in Heq.
    + injection Heq as Hx _. subst x. by cbn in H1.
    + injection Heq as -> Heq. cbn in H1, H2.
      apply orb_false_elim in H1 as [_ H1].
      apply orb_false_elim in H2 as [_ H2].
      by destruct (IH _ _ _ H1 H2 Heq) as [-> ->].
Qed.

(** X16. Among boosts whose chain holds no underscore the identifier
    tells the pairs apart: two such boosts with the same identifier have
    the same chain and the same address. *)
Theorem boost_id_without_underscore
    (boost1 boost2 : json) (chain1 address1 chain2 address2 : string) :
  getitem boost1 "chainId" = Ok (JStr chain1) ->
  getitem boost1 "tokenAddress" = Ok (JStr address1) ->
  getitem boost2 "chainId" = Ok (JStr chain2) ->
  getitem boost2 "tokenAddress" = Ok (JStr address2) ->
  has "_" chain1 = false ->
  has "_" chain2 = false ->
  boost_id boost1 = boost_id boost2 ->
  chain1 = chain2 /\ address1 = address2.
Proof.
  intros Hc1 Ha1 Hc2 Ha2 H1 H2. unfold boost_id, bind.
  rewrite Hc1, Ha1, Hc2, Ha2. simpl. intros [= Heq].
  by apply (underscore_split chain1 chain2).
Qed.

End TokenShape.

(** * The further properties on the samples *)

Section MoreSamples.
Import Sample.
#[local] Existing Instance Reference.runtime.

Lemma messages_follow_the_feed_witness :
  let w := feed (solana :: eth :: solana :: nil) 100 in
  sublist (sent (snd (cycle w fresh))) (polled w) /\
  "solana_ABC" ∉ known_boosts fresh.
Proof.
  intros w.
  destruct (messages_follow_the_feed w fresh) as (H1 & _ & _ & H4).
  split; [exact H1|]. apply H4.
  apply (bool_decide_unpack _). vm_compute. exact I.
Defined.

Lemma known_after_a_cycle_witness :
  let w := feed (solana :: eth :: nil) 100 in
  known_boosts (fst (cycle w seen_eth))
  = known_boosts seen_eth ∪ list_to_set (ids (polled w)).
Proof.
  intros w.
  apply (proj2 (proj2 (known_after_a_cycle w seen_eth))).
  vm_compute. reflexivity.
Defined.

Lemma known_count_and_messages_witness :
  let ws := muted (solana :: nil) 100
            :: feed (no_amounts :: eth :: nil) 200 :: nil in
  let final := fst (monitor_boosts ws fresh) in
  let messages := length (sent (snd (monitor_boosts ws fresh))) in
  exists n,
    (messages <= n <= messages + length ws)%nat /\
    status_message dec final =
      "📊 Monitor Status:" ++ nl ++
      "Last check: " ++ dec (last_check_time final) ++ nl ++
      "Known boosts: " ++ dec (Z.of_nat n) ++ nl ++
      "Check interval: 60 seconds".
Proof.
  intros ws final messages.
  exact (proj2 (proj2 (known_count_and_messages dec ws fresh 0)) eq_refl).
Defined.

Lemma cycle_with_nothing_new_witness :
  let again := JDict (("chainId", JStr "eth")
                      :: ("tokenAddress", JStr "0x1") :: nil) in
  cycle (feed (again :: nil) 100) seen_eth =
    ({| known_boosts := known_boosts seen_eth; last_check_time := 100 |},
     Sleep CHECK_INTERVAL :: nil).
Proof.
  intros again.
  apply (cycle_with_nothing_new (feed (again :: nil) 100) seen_eth
           (JList (again :: nil)) eq_refl).
  intros b Hb. apply list_elem_of_singleton in Hb. subst b.
  exists "eth_0x1". split; [reflexivity|].
  apply (bool_decide_unpack _). vm_compute. exact I.
Defined.

Lemma next_cycle_passes_the_offender_witness :
  let w := feed (no_amounts :: eth :: nil) 100 in
  sent (snd (cycle w fresh)) = nil /\
  run_loop w (fst (cycle w fresh))
  = for_boosts w 1 (eth :: nil) ({["bsc_0x2"]} ∪ ∅).
Proof.
  intros w.
  refine (next_cycle_passes_the_offender w w fresh nil no_amounts
            (eth :: nil) ∅ nil "bsc_0x2" KeyError
            eq_refl eq_refl eq_refl _ _ eq_refl).
  - apply not_elem_of_empty.
  - vm_compute. reflexivity.
Defined.

Lemma single_object_that_is_no_boost_witness :
  let data := JDict (("error", JStr "rate limited") :: nil) in
  let w := {| boosts_reply := Body data;
              tokens_reply := fun _ _ => TransportError;
              delivers := fun _ _ => true;
              now := 100 |} in
  cycle w seen_eth =
    (seen_eth,
     LogError "Error in monitoring loop" :: Sleep CHECK_INTERVAL :: nil).
Proof.
  intros data w.
  refine (single_object_that_is_no_boost w seen_eth data eq_refl _ eq_refl).
  intros l Hl. discriminate Hl.
Defined.

Lemma format_number_written_out_witness :
  format_number (JInt (-5000000)) = Ok ("$" ++ signed (-5000000) ++ ".00").
Proof.
  apply format_number_written_out. split; reflexivity.
Defined.

Lemma format_number_outcomes_witness :
  format_number JNull = Raise TypeError /\
  format_number (JStr "100") = Raise TypeError /\
  OverflowError = OverflowError.
Proof.
  destruct format_number_outcomes as (H1 & _ & H3).
  split; [|split].
  - apply H1. reflexivity.
  - apply H1. reflexivity.
  - apply (H3 (10 ^ 400)). vm_compute. reflexivity.
Defined.

Lemma format_number_text_witness :
  starts_with "$" "$1.50K" = true /\
  all_in number_alphabet "$1.50K" = true /\
  has "*" "$1.50K" = false /\ has "_" "$1.50K" = false /\
  has "`" "$1.50K" = false /\ has "[" "$1.50K" = false.
Proof.
  apply (format_number_text (JInt 1500)). vm_compute. reflexivity.
Defined.

Lemma unreadable_first_pair_witness :
  get_token_info
    (Body (JDict (("pairs", JList (JDict nil :: JDict plain_pair :: nil))
                  :: nil)))
  = (None, LogError "Error fetching token info" :: nil).
Proof.
  apply (unreadable_first_pair _ (JDict nil) (JDict plain_pair :: nil));
    reflexivity.
Defined.

Lemma metric_that_is_no_number_witness :
  let fields := base_token :: ("marketCap", JNull) :: nil in
  let w := feed_with fields (solana :: nil) 100 in
  build_message w 0 solana = (nil, Raise TypeError) /\
  send_notification w 0 solana = (nil, Raise TypeError).
Proof.
  intros fields w.
  exact (metric_that_is_no_number w 0 solana (JStr "solana") (JStr "ABC")
           JNull _ fields nil
           eq_refl eq_refl eq_refl eq_refl eq_refl eq_refl eq_refl).
Defined.

Lemma social_links_well_formed_witness :
  let d := ("websites", JList (JStr "https://foo" :: nil))
           :: ("socials", JList nil) :: nil in
  is_ok (format_social_links (JDict d))
  = forallb is_dict (JStr "https://foo" :: nil) && forallb social_ok nil.
Proof.
  intros d.
  exact (social_links_well_formed d _ _ eq_refl eq_refl).
Defined.

Lemma entries_without_links_witness :
  let d := ("websites", JList (JDict (("label", JStr "Docs") :: nil) :: nil))
           :: ("socials",
               JList (JDict (("platform", JStr "twitter") :: nil) :: nil))
           :: nil in
  format_social_links (JDict d) = Ok "No social links available".
Proof.
  intros d.
  exact (entries_without_links d _ _ eq_refl eq_refl eq_refl eq_refl).
Defined.

Lemma boost_id_without_underscore_witness :
  "solana" = "solana" /\ "ABC" = "ABC".
Proof.
  exact (boost_id_without_underscore solana (boost "solana" "ABC" 7 9)
           "solana" "ABC" "solana" "ABC"
           eq_refl eq_refl eq_refl eq_refl eq_refl eq_refl eq_refl).
Defined.

End MoreSamples.

(** * The poll, by the status of the response *)

Section PollStatus.
Context {RT : Runtime}.

(** C4, as the code has it.  [get_latest_boosts] returns an empty list
    when the request raises, when the status is a client or server error
    (400 to 599, the statuses [raise_for_status] raises for), and when the
    body is not JSON; with any other status, 2xx or not, a JSON body is
    returned as decoded.  The cycle turns what is returned into a list
    before the loop over the boosts starts: a list is kept, anything else
    becomes the list of that one object. *)
Theorem poll_by_status (r : reply) :
  (r = NoResponse ->
   get_latest_boosts (outcome r)
   = (JList nil, LogError "Error fetching boosts" :: nil)) /\
  (forall resp,
     r = Response resp ->
     raises_for_status (status_code resp) = true \/ json_body resp = None ->
     get_latest_boosts (outcome r)
     = (JList nil, LogError "Error fetching boosts" :: nil)) /\
  (forall resp data,
     r = Response resp ->
     raises_for_status (status_code resp) = false ->
     json_body resp = Some data ->
     get_latest_boosts (outcome r) = (data, nil) /\
     (forall l, data = JList l -> as_list data = l) /\
     ((forall l, data <> JList l) -> as_list data = data :: nil)) /\
  (forall w st,
     boosts_reply w = outcome r ->
     cycle w st =
       let '(known, log, res) :=
         for_boosts w 0 (as_list (fst (get_latest_boosts (outcome r))))
                    (known_boosts st) in
       ({| known_boosts := known;
           last_check_time :=
             if is_ok res then now w else last_check_time st |},
        (snd (get_latest_boosts (outcome r)) ++ log ++ cycle_tail res)%list)).
Proof.
  split_and!.
  - by intros ->.
  - intros resp -> [H|H]; simpl.
    + by rewrite H.
    + rewrite H. by destruct (raises_for_status (status_code resp)).
  - intros resp data -> Hs Hb. simpl. rewrite Hs, Hb. split_and!.
    + done.
    + by intros l ->.
    + intros Hl. destruct data; try done. by destruct (Hl l).
  - intros w st Hw. rewrite cycle_run_loop. unfold run_loop, polled.
    by rewrite Hw.
Qed.

End PollStatus.

Section RevisedSamples.
Import Sample.
#[local] Existing Instance Reference.runtime.


(** C4 as stated fails: an answer with status 300 and a JSON body is
    not a 2xx answer, [raise_for_status] does not raise for it, and its
    body is what [get_latest_boosts] returns. *)
Lemma other_status_is_returned :
  let answer := Response {| status_code := 300;
                            json_body := Some (JList (solana :: nil)) |} in
  raises_for_status 300 = false /\
  get_latest_boosts (outcome answer) = (JList (solana :: nil), nil) /\
  sent (snd (cycle {| boosts_reply := outcome answer;
                      tokens_reply := fun _ _ => TransportError;
                      delivers := fun _ _ => true;
                      now := 100 |} fresh))
  = solana :: nil.
Proof. repeat split; vm_compute; reflexivity. Qed.

Lemma poll_by_status_witness :
  let found := Response {| status_code := 200;
                           json_body := Some solana |} in
  get_latest_boosts (outcome NoResponse)
  = (JList nil, LogError "Error fetching boosts" :: nil) /\
  get_latest_boosts
    (outcome (Response {| status_code := 503;
                          json_body := Some (JList (solana :: nil)) |}))
  = (JList nil, LogError "Error fetching boosts" :: nil) /\
  get_latest_boosts
    (outcome (Response {| status_code := 200; json_body := None |}))
  = (JList nil, LogError "Error fetching boosts" :: nil) /\
  get_latest_boosts (outcome found) = (solana, nil) /\
  as_list solana = solana :: nil /\
  as_list (JList (solana :: eth :: nil)) = solana :: eth :: nil /\
  sent (snd (cycle {| boosts_reply := outcome found;
                      tokens_reply := fun _ _ => TransportError;
                      delivers := fun _ _ => true;
                      now := 100 |} fresh))
  = solana :: nil.
Proof.
  intros found.
  destruct (poll_by_status found) as (_ & _ & _ & H6).
  destruct (poll_by_status NoResponse) as (H1 & _).
  destruct (poll_by_status
              (Response {| status_code := 503;
                           json_body := Some (JList (solana :: nil)) |}))
    as (_ & H2 & _).
  destruct (poll_by_status
              (Response {| status_code := 200; json_body := None |}))
    as (_ & H3 & _).
  destruct (poll_by_status found) as (_ & _ & H4 & _).
  destruct (poll_by_status
              (Response {| status_code := 200;
                           json_body :=
                             Some (JList (solana :: eth :: nil)) |}))
    as (_ & _ & H5 & _).
  destruct (H4 _ solana eq_refl eq_refl eq_refl) as (H4a & _ & H4c).
  destruct (H5 _ (JList (solana :: eth :: nil)) eq_refl eq_refl eq_refl)
    as (_ & H5b & _).
  split; [apply H1; reflexivity|].
  split; [apply (H2 _ eq_refl); left; reflexivity|].
  split; [apply (H3 _ eq_refl); right; reflexivity|].
  split; [exact H4a|].
  split; [apply H4c; intros l Hl; discriminate Hl|].
  split; [apply H5b; reflexivity|].
  rewrite (H6 {| boosts_reply := outcome found;
                 tokens_reply := fun _ _ => TransportError;
                 delivers := fun _ _ => true;
                 now := 100 |} fresh eq_refl).
  vm_compute. reflexivity.
Defined.

End RevisedSamples.
